(** * Email classifier: text normalisation and vectorisation pipeline

    A shallow embedding of [main.py]: the HTML-to-text converter
    ([html_to_plain_text]), the part selection ([email_to_text]), the
    word-counter stage ([EmailToWordCounterTransformer]) and the
    vocabulary stage ([WordCounterToVectorTransformer]), with the
    properties the specification states about them.

    Conventions.
    - A Python [str] is a [string]; every character is read as a code
      point below 256.
    - A Python [int] is a [Z]; counts are not bounded, the cells of the
      matrix are 64-bit integers.
    - A [dict] / [Counter] is an association list in insertion order
      with unique keys, as CPython iterates it.
    - The methods of the vocabulary stage run on the object they belong
      to: they take it and give back a value or an exception, and the
      object as they leave it.
    - The [re] patterns of the source are written out as matchers. What
      comes from packages is a parameter: the extractor of urlextract and
      the stemmer of nltk, the iteration order of a [set], the entity
      tables of [html.unescape]. [csr_matrix] is read as the dense matrix
      it stands for. *)

From Stdlib Require Import String Ascii List ZArith Lia Bool Arith.
From Stdlib Require Import Permutation Sorted.
Import ListNotations.

Open Scope string_scope.
Open Scope list_scope.
Open Scope nat_scope.

(* ===================================================================== *)
(** * Strings and the [re.sub] driver *)
(* ===================================================================== *)

Module PyStr.

Definition code (c : ascii) : nat := nat_of_ascii c.

(** [str.isspace] on one character, which is also what [\s] matches in a
    [str] pattern: TAB..CR, FS..US, SPACE, NEL and NBSP. *)
Definition isspace (c : ascii) : bool :=
  let n := code c in
  ((9 <=? n) && (n <=? 13)) || ((28 <=? n) && (n <=? 32))
  || (n =? 133) || (n =? 160).

(** [\d] in a [str] pattern. *)
Definition isdigit (c : ascii) : bool :=
  let n := code c in (48 <=? n) && (n <=? 57).

(** [\w] in a [str] pattern: alphanumeric or underscore. *)
Definition isword (c : ascii) : bool :=
  let n := code c in
  isdigit c
  || ((65 <=? n) && (n <=? 90)) || ((97 <=? n) && (n <=? 122))
  || (n =? 95)
  || (n =? 170) || (n =? 178) || (n =? 179) || (n =? 181)
  || (n =? 185) || (n =? 186) || ((188 <=? n) && (n <=? 190))
  || ((192 <=? n) && (n <=? 214)) || ((216 <=? n) && (n <=? 246))
  || (248 <=? n).

(** [str.lower] on one character, for the code points below 256 that a
    [string] holds: there the upper-case letters are A-Z and the Latin-1
    letters 192-214 and 216-222, and each has one lower-case character,
    32 further. (Beyond 255 [str.lower] can give two characters for one,
    as for U+0130; such text is outside the strings modelled here.) *)
Definition lower_char (c : ascii) : ascii :=
  let n := code c in
  if ((65 <=? n) && (n <=? 90))
     || ((192 <=? n) && (n <=? 214)) || ((216 <=? n) && (n <=? 222))
  then ascii_of_nat (n + 32) else c.

(** [str.lower], character by character. *)
Fixpoint lower (s : string) : string :=
  match s with
  | EmptyString => EmptyString
  | String c s' => String (lower_char c) (lower s')
  end.

(** Equality of characters, exact or ignoring case ([re.I]). *)
Definition char_eq (ci : bool) (a b : ascii) : bool :=
  if ci then Ascii.eqb (lower_char a) (lower_char b) else Ascii.eqb a b.

(** [s] starts with [p]. *)
Fixpoint starts_with (ci : bool) (p s : string) : bool :=
  match p, s with
  | EmptyString, _ => true
  | String a p', String b s' => char_eq ci a b && starts_with ci p' s'
  | String _ _, EmptyString => false
  end.

(** Offset of the first occurrence of [p] in [s]. *)
Fixpoint find (ci : bool) (p s : string) : option nat :=
  if starts_with ci p s then Some 0
  else match s with
       | EmptyString => None
       | String _ s' => option_map S (find ci p s')
       end.

(** [p in s]. *)
Definition contains (p s : string) : bool :=
  match find false p s with Some _ => true | None => false end.

Fixpoint drop (n : nat) (s : string) : string :=
  match n, s with
  | S k, String _ s' => drop k s'
  | _, _ => s
  end.

(** A matcher tells how many characters a pattern consumes when it is
    tried at the head of the text; a rule also gives the replacement. *)
Definition matcher := string -> option nat.
Definition rule := string -> option (nat * string).

Definition const_rule (m : matcher) (repl : string) : rule :=
  fun s => option_map (fun n => (n, repl)) (m s).

(** [re.sub(pattern, repl, s)] for a pattern that never matches the empty
    string: scan left to right, replace the leftmost match, resume after
    it.  [skip] counts the characters of the current match still to be
    dropped. *)
Fixpoint sub_from (r : rule) (skip : nat) (s : string) : string :=
  match s with
  | EmptyString => EmptyString
  | String c s' =>
      match skip with
      | S k => sub_from r k s'
      | O =>
          match r s with
          | Some (S n, repl) => (repl ++ sub_from r n s')%string
          | _ => String c (sub_from r 0 s')
          end
      end
  end.

Definition sub (m : matcher) (repl : string) (s : string) : string :=
  sub_from (const_rule m repl) 0 s.

(** [str.replace(old, new)]. An empty [old] matches between all
    characters and at both ends. *)
Fixpoint intersperse (new s : string) : string :=
  match s with
  | EmptyString => new
  | String c s' => (new ++ String c (intersperse new s'))%string
  end.

Definition literal (old : string) : matcher :=
  fun s => if starts_with false old s then Some (String.length old) else None.

Definition replace (old new s : string) : string :=
  match old with
  | EmptyString => intersperse new s
  | _ => sub (literal old) new s
  end.

Fixpoint take (n : nat) (s : string) : string :=
  match n, s with
  | S k, String c s' => String c (take k s')
  | _, _ => EmptyString
  end.

(** Length of the longest prefix whose characters satisfy [f]. *)
Fixpoint span (f : ascii -> bool) (s : string) : nat :=
  match s with
  | String c s' => if f c then S (span f s') else 0
  | EmptyString => 0
  end.

(** [str.split()]: the maximal runs of non-space characters. [cur] is the
    word being read, reversed. *)
Fixpoint rev_string (acc s : string) : string :=
  match s with
  | EmptyString => acc
  | String c s' => rev_string (String c acc) s'
  end.

Definition flush (cur : string) (rest : list string) : list string :=
  match cur with
  | EmptyString => rest
  | _ => rev_string EmptyString cur :: rest
  end.

Fixpoint split_from (cur : string) (s : string) : list string :=
  match s with
  | EmptyString => flush cur []
  | String c s' =>
      if isspace c then flush cur (split_from EmptyString s')
      else split_from (String c cur) s'
  end.

Definition split (s : string) : list string := split_from EmptyString s.

End PyStr.

(* ===================================================================== *)
(** * [html_to_plain_text] *)
(* ===================================================================== *)

Module Html.
Import PyStr.

(** ["<head.*?>.*?</head>"] with [re.S | re.I]: ["<head"], then the
    nearest [">"], then the nearest ["</head>"] after it. A later [">"]
    cannot succeed where the nearest one fails, so no backtracking
    is lost. *)
Definition head_region : matcher := fun s =>
  if starts_with true "<head" s then
    let s1 := drop 5 s in
    match find false ">" s1 with
    | Some j =>
        let s2 := drop (j + 1) s1 in
        match find true "</head>" s2 with
        | Some k => Some (5 + (j + 1) + (k + 7))
        | None => None
        end
    | None => None
    end
  else None.

(** ["<a\s.*?>"] with [re.S | re.I]. *)
Definition anchor_open : matcher := fun s =>
  match s with
  | String lt (String a (String w s1)) =>
      if Ascii.eqb lt "<"%char && char_eq true a "a"%char && isspace w then
        match find false ">" s1 with
        | Some j => Some (3 + (j + 1))
        | None => None
        end
      else None
  | _ => None
  end.

(** ["<.*?>"] with [re.S]. *)
Definition any_tag : matcher := fun s =>
  match s with
  | String lt s1 =>
      if Ascii.eqb lt "<"%char then
        match find false ">" s1 with
        | Some j => Some (1 + (j + 1))
        | None => None
        end
      else None
  | _ => None
  end.

(** ["(\s*\n)+"]: within the run of white space at the head, everything
    up to its last newline. *)
Fixpoint last_newline (n : nat) (s : string) : option nat :=
  match n, s with
  | S k, String c s' =>
      match last_newline k s' with
      | Some j => Some (S j)
      | None => if Ascii.eqb c "010"%char then Some 1 else None
      end
  | _, _ => None
  end.

Definition blank_lines : matcher := fun s => last_newline (span isspace s) s.

(** The tables of Python's [html] module that [unescape] consults:
    [html5] is [html.entities.html5], keyed by the reference name with its
    semicolon when it has one; [numeric_charref] is the text a numeric
    reference of the given number stands for. *)
Record CharRefs := {
  html5 : string -> option string;
  numeric_charref : N -> string
}.

Definition is_hex (c : ascii) : bool :=
  let n := code c in
  isdigit c || ((65 <=? n) && (n <=? 70)) || ((97 <=? n) && (n <=? 102)).

Definition hex_value (c : ascii) : N :=
  let n := code c in
  N.of_nat (if isdigit c then n - 48
            else if n <=? 70 then n - 55 else n - 87).

(** [int(text, base)] on the first [n] characters. *)
Fixpoint parse_int (base : N) (acc : N) (n : nat) (s : string) : N :=
  match n, s with
  | S k, String c s' => parse_int base (acc * base + hex_value c) k s'
  | _, _ => acc
  end.

(** A character a reference name may contain: [[^\t\n\f <&#;]]. *)
Definition is_name_char (c : ascii) : bool :=
  let n := code c in
  negb ((n =? 9) || (n =? 10) || (n =? 12) || (n =? 32) || (n =? 60)
        || (n =? 38) || (n =? 35) || (n =? 59)).

Definition semicolon (s : string) : nat :=
  match s with
  | String c _ => if Ascii.eqb c ";"%char then 1 else 0
  | EmptyString => 0
  end.

Section Unescape.
Variable T : CharRefs.

(** The loop [for x in range(len(s)-1, 1, -1)] of [_replace_charref]:
    the longest proper prefix of [s] that names a reference. *)
Fixpoint longest_name (x : nat) (s : string) : string :=
  match x with
  | S (S _ as x') =>
      match html5 T (take x s) with
      | Some v => (v ++ drop x s)%string
      | None => longest_name x' s
      end
  | _ => String "&"%char s
  end.

Definition named_charref (s : string) : string :=
  match html5 T s with
  | Some v => v
  | None => longest_name (String.length s - 1) s
  end.

(** ["&(#[0-9]+;?|#[xX][0-9a-fA-F]+;?|[^\t\n\f <&#;]{1,32};?)"]
    together with [_replace_charref]. *)
Definition charref : rule := fun s =>
  match s with
  | String amp s1 =>
      if Ascii.eqb amp "&"%char then
        match s1 with
        | String h s2 =>
            if Ascii.eqb h "#"%char then
              match span isdigit s2 with
              | S _ as d =>
                  Some (2 + d + semicolon (drop d s2),
                        numeric_charref T (parse_int 10 0 d s2))
              | O =>
                  match s2 with
                  | String x s3 =>
                      if char_eq true x "x"%char then
                        match span is_hex s3 with
                        | S _ as d =>
                            Some (3 + d + semicolon (drop d s3),
                                  numeric_charref T (parse_int 16 0 d s3))
                        | O => None
                        end
                      else None
                  | EmptyString => None
                  end
              end
            else
              match Nat.min 32 (span is_name_char s1) with
              | S _ as d =>
                  let n := d + semicolon (drop d s1) in
                  Some (1 + n, named_charref (take n s1))
              | O => None
              end
        | EmptyString => None
        end
      else None
  | EmptyString => None
  end.

(** [html.unescape]. *)
Definition unescape (s : string) : string := sub_from charref 0 s.

(** Lines 118-123 of [main.py]. *)
Definition html_to_plain_text (html : string) : string :=
  let text := sub head_region "" html in
  let text := sub anchor_open " HYPERLINK " text in
  let text := sub any_tag "" text in
  let text := sub blank_lines (String "010"%char "") text in
  unescape text.
End Unescape.

(** A small table, enough to run examples: the five named references of
    XML, and for a number the character of that code. *)
Definition basic_refs : CharRefs := {|
  html5 := fun s =>
    if String.eqb s "amp;" || String.eqb s "amp" then Some "&"
    else if String.eqb s "lt;" || String.eqb s "lt" then Some "<"
    else if String.eqb s "gt;" || String.eqb s "gt" then Some ">"
    else if String.eqb s "quot;" || String.eqb s "quot"
         then Some (String (ascii_of_nat 34) "")
    else if String.eqb s "apos;" then Some "'"
    else None;
  numeric_charref := fun n => String (ascii_of_N n) ""
|}.

Definition sample_html : string :=
  "<head><title>x</title></head><body><a href='x'>link</a> Hello &amp; welcome</body>".

End Html.

(* ===================================================================== *)
(** * Lists, dictionaries and counters as Python has them *)
(* ===================================================================== *)

Module PyList.

Section Sorted.
Context {A : Type} (key : A -> Z).

(** Where [x] goes in a list already in descending key order: before
    the first element whose key is not greater, so that [x] stays in
    front of the elements with an equal key that followed it. *)
Fixpoint insert_desc (x : A) (l : list A) : list A :=
  match l with
  | [] => [x]
  | y :: l' =>
      if (key x <? key y)%Z then y :: insert_desc x l' else x :: y :: l'
  end.

(** [sorted(l, key=key, reverse=True)]: a stable sort, largest key
    first. *)
Fixpoint sorted_reverse (l : list A) : list A :=
  match l with
  | [] => []
  | x :: l' => insert_desc x (sorted_reverse l')
  end.
End Sorted.

(** [enumerate(l, start)]. *)
Fixpoint enumerate_from {A : Type} (start : Z) (l : list A)
  : list (Z * A) :=
  match l with
  | [] => []
  | x :: l' => (start, x) :: enumerate_from (start + 1)%Z l'
  end.

Definition enumerate {A : Type} (l : list A) : list (Z * A) :=
  enumerate_from 0%Z l.

(** [l[:stop]]: a negative [stop] counts from the end. *)
Definition slice_to {A : Type} (l : list A) (stop : Z) : list A :=
  if (stop <? 0)%Z
  then firstn (Z.to_nat (Z.of_nat (length l) + stop)) l
  else firstn (Z.to_nat stop) l.

End PyList.

Module PyDict.

Definition dict (V : Type) : Type := list (string * V).

Section Dict.
Context {V : Type}.

(** [d.keys()] and [d.items()] are the list itself, read in order. *)
Definition keys (d : dict V) : list string := map fst d.

Fixpoint get (d : dict V) (k : string) : option V :=
  match d with
  | [] => None
  | (k', v) :: d' => if String.eqb k' k then Some v else get d' k
  end.

(** [d.get(k, default)]. *)
Definition get_default (d : dict V) (k : string) (default : V) : V :=
  match get d k with Some v => v | None => default end.

(** [d[k] = v]: a present key keeps its place, a new one goes last. *)
Fixpoint set (d : dict V) (k : string) (v : V) : dict V :=
  match d with
  | [] => [(k, v)]
  | (k', v') :: d' =>
      if String.eqb k' k then (k', v) :: d' else (k', v') :: set d' k v
  end.

(** The invariant of every dictionary: no key twice. *)
Definition wf (d : dict V) : Prop := NoDup (keys d).
End Dict.

(** ** [collections.Counter] *)

Definition Counter : Type := dict Z.

(** [c[k]]: a missing key counts as zero and is not inserted. *)
Definition count (c : Counter) (k : string) : Z := get_default c k 0%Z.

(** [c[k] += n]. *)
Definition add (c : Counter) (k : string) (n : Z) : Counter :=
  set c k (count c k + n)%Z.

(** [Counter(iterable)]. *)
Definition of_list (words : list string) : Counter :=
  fold_left (fun c w => add c w 1%Z) words [].

(** [c.most_common()]: [sorted(c.items(), key=itemgetter(1),
    reverse=True)]. *)
Definition most_common (c : Counter) : list (string * Z) :=
  PyList.sorted_reverse snd c.

End PyDict.

(* ===================================================================== *)
(** * Messages and [email_to_text] *)
(* ===================================================================== *)

Module Email.

(** What [email_to_text] asks of one part: its content type, the result
    of [get_content()] ([None] when it raises) and [str(get_payload())]. *)
Record Part := {
  get_content_type : string;
  get_content : option string;
  get_payload : string
}.

(** A parsed message: a leaf, or a multipart with its parts in order. *)
#[warnings="-register-all"] Inductive Message :=
| Leaf (p : Part)
| Multipart (p : Part) (parts : list Message).

(** [email.walk()]: the message itself, then its parts depth first. *)
Fixpoint walk (m : Message) : list Part :=
  match m with
  | Leaf p => [p]
  | Multipart p parts => p :: flat_map walk parts
  end.

(** The [try ... except] of lines 148-151. *)
Definition part_content (part : Part) : string :=
  match get_content part with
  | Some content => content
  | None => get_payload part
  end.

Section EmailToText.
Variable T : Html.CharRefs.

(** Lines 156-157: what is returned once the loop is over; an empty
    string is false for [if html:], and so is [None]. *)
Definition after_loop (html : option string) : option string :=
  match html with
  | Some h =>
      if String.eqb h "" then None
      else Some (Html.html_to_plain_text T h)
  | None => None
  end.

(** The [for] loop of lines 144-155 on the parts still to come; [html] is
    the local variable of that name. *)
Fixpoint email_to_text_loop (html : option string) (parts : list Part)
  : option string :=
  match parts with
  | [] => after_loop html
  | part :: rest =>
      let ctype := get_content_type part in
      if negb (String.eqb ctype "text/plain"
               || String.eqb ctype "text/html")
      then email_to_text_loop html rest
      else
        let content := part_content part in
        if String.eqb ctype "text/plain" then Some content
        else email_to_text_loop (Some content) rest
  end.

Definition email_to_text (email : Message) : option string :=
  email_to_text_loop None (walk email).
End EmailToText.

End Email.

(* ===================================================================== *)
(** * The word-counter stage *)
(* ===================================================================== *)

Module EmailToWordCounter.
Import PyDict.

Record EmailToWordCounterTransformer := {
  strip_headers : bool;
  lower_case : bool;
  remove_punctuation : bool;
  replace_urls : bool;
  replace_numbers : bool;
  stemming : bool
}.

(** The pattern of line 219: digits, then an optional fraction (a dot
    and any digits), then an optional exponent ([e] or [E], an optional
    sign, digits). Every optional group is taken when it can be. *)
Definition number : PyStr.matcher := fun s =>
  match PyStr.span PyStr.isdigit s with
  | O => None
  | S _ as d =>
      let s1 := PyStr.drop d s in
      let f := match s1 with
               | String c s2 =>
                   if Ascii.eqb c "."%char
                   then 1 + PyStr.span PyStr.isdigit s2 else 0
               | EmptyString => 0
               end in
      let s3 := PyStr.drop f s1 in
      let e := match s3 with
               | String c s4 =>
                   if PyStr.char_eq true c "e"%char then
                     let sg := match s4 with
                               | String g _ =>
                                   if Ascii.eqb g "+"%char
                                      || Ascii.eqb g "-"%char
                                   then 1 else 0
                               | EmptyString => 0
                               end in
                     match PyStr.span PyStr.isdigit (PyStr.drop sg s4) with
                     | O => 0
                     | S _ as k => 1 + sg + k
                     end
                   else 0
               | EmptyString => 0
               end in
      Some (d + f + e)
  end.

(** ["\W+"]. *)
Definition non_word : PyStr.matcher := fun s =>
  match PyStr.span (fun c => negb (PyStr.isword c)) s with
  | O => None
  | S _ as n => Some n
  end.

Section Transform.
(** The module-level objects [url_extractor] and [stemmer], given by
    their methods [find_urls] and [stem]; [None] is Python's [None]. *)
Variable url_extractor : option (string -> list string).
Variable stemmer : option (string -> string).
(** [list(set(l))]: the distinct elements of [l] in the order the
    interpreter iterates the set. *)
Variable list_set : list string -> list string.
Variable T : Html.CharRefs.

Definition fit (self : EmailToWordCounterTransformer)
  (X : list Email.Message) : EmailToWordCounterTransformer := self.

(** Lines 210-228: the body of the loop, for one message. *)
Definition word_counts_of (self : EmailToWordCounterTransformer)
  (email : Email.Message) : Counter :=
  let text := match Email.email_to_text T email with
              | Some t => t
              | None => ""
              end in
  let text := if lower_case self then PyStr.lower text else text in
  let text :=
    match url_extractor with
    | Some find_urls =>
        if replace_urls self then
          let urls := list_set (find_urls text) in
          let urls :=
            PyList.sorted_reverse
              (fun url => Z.of_nat (String.length url)) urls in
          fold_left (fun text url => PyStr.replace url " URL " text)
                    urls text
        else text
    | None => text
    end in
  let text := if replace_numbers self
              then PyStr.sub number "NUMBER" text else text in
  let text := if remove_punctuation self
              then PyStr.sub non_word " " text else text in
  let word_counts := of_list (PyStr.split text) in
  match stemmer with
  | Some stem =>
      if stemming self then
        fold_left (fun stemmed_word_counts '(word, count) =>
                     add stemmed_word_counts (stem word) count)
                  word_counts []
      else word_counts
  | None => word_counts
  end.

(** Lines 207-230: [X_transformed] grows by one counter per message. *)
Definition transform (self : EmailToWordCounterTransformer)
  (X : list Email.Message) : list Counter :=
  fold_left (fun X_transformed email =>
               X_transformed ++ [word_counts_of self email])
            X [].
End Transform.

End EmailToWordCounter.

(* ===================================================================== *)
(** * The vocabulary stage *)
(* ===================================================================== *)

(** A computation that returns a value or raises. *)
Inductive exn := AttributeError | ValueError.

Inductive result (A : Type) :=
| Ok (a : A)
| Raise (e : exn).
Arguments Ok {A} a.
Arguments Raise {A} e.

(** [scipy.sparse.csr_matrix((data, (rows, cols)), shape)], read through
    [toarray()]: a dense list of rows. *)
Module SciPy.

Definition matrix : Type := list (list Z).

Definition zeros (nrows ncols : nat) : matrix :=
  repeat (repeat 0%Z ncols) nrows.

Fixpoint update {A : Type} (f : A -> A) (i : nat) (l : list A) : list A :=
  match l, i with
  | [], _ => []
  | x :: l', O => f x :: l'
  | x :: l', S k => x :: update f k l'
  end.

Definition add_at (i j : nat) (x : Z) (m : matrix) : matrix :=
  update (update (fun y => (y + x)%Z) j) i m.

Definition in_range (n : Z) (i : Z) : bool := ((0 <=? i) && (i <? n))%Z.

(** An integer that fits in 64 bits, sign included. *)
Definition int64 (z : Z) : bool := ((- 2 ^ 63 <=? z) && (z <? 2 ^ 63))%Z.

(** The 64-bit integer that an exact sum becomes: addition in 64 bits
    wraps around. *)
Definition wrap64 (z : Z) : Z := ((z + 2 ^ 63) mod 2 ^ 64 - 2 ^ 63)%Z.

(** What a cell holds when the exact sum of its entries is [z]. numpy
    makes an array of 64-bit integers of a list of Python integers that
    all fit in 64 bits, and the entries of a cell are added in that type.
    For a list with an integer outside of that range numpy picks another
    type, or scipy refuses the list; that case is outside of this model,
    which keeps the exact sum there. *)
Definition stored (data : list Z) (z : Z) : Z :=
  if forallb int64 data then wrap64 z else z.

(** Entries that name the same cell are added up, in 64 bits; a negative
    dimension, an index outside the shape or lists of different lengths
    raise [ValueError]. *)
Definition csr_matrix (data rows cols : list Z) (shape : Z * Z)
  : result matrix :=
  let '(nrows, ncols) := shape in
  if ((0 <=? nrows) && (0 <=? ncols))%Z
     && (length rows =? length data) && (length cols =? length data)
     && forallb (in_range nrows) rows && forallb (in_range ncols) cols
  then
    Ok (map (map (stored data))
          (fold_left
             (fun m '(i, j, x) => add_at (Z.to_nat i) (Z.to_nat j) x m)
             (combine (combine rows cols) data)
             (zeros (Z.to_nat nrows) (Z.to_nat ncols))))
  else Raise ValueError.

End SciPy.

Module WordCounterToVector.
Import PyDict.

(** The object: its parameter and, once [fit] has run, the attribute
    [vocabulary_]. *)
Record WordCounterToVectorTransformer := {
  vocabulary_size : Z;
  vocabulary_ : option (dict Z)
}.

(** [WordCounterToVectorTransformer(vocabulary_size)]. *)
Definition init (vocabulary_size : Z) : WordCounterToVectorTransformer :=
  {| vocabulary_size := vocabulary_size; vocabulary_ := None |}.

(** ** Methods

    A method runs on the object [self] and gives a value, or the exception
    it raises, together with the object as it leaves it. *)
Definition method (A : Type) : Type :=
  WordCounterToVectorTransformer
  -> result A * WordCounterToVectorTransformer.

Definition ret {A : Type} (a : A) : method A := fun self => (Ok a, self).

Definition bind {A B : Type} (m : method A) (k : A -> method B) : method B :=
  fun self =>
    match m self with
    | (Ok a, self') => k a self'
    | (Raise e, self') => (Raise e, self')
    end.

Notation "x <- m ;; k" := (bind m (fun x => k))
  (at level 61, m at next level, right associativity).

(** A computation that does not touch the object. *)
Definition lift {A : Type} (r : result A) : method A := fun self => (r, self).

(** [self.vocabulary_size]. *)
Definition get_vocabulary_size : method Z :=
  fun self => (Ok (vocabulary_size self), self).

(** [self.vocabulary_]: an [AttributeError] before [fit] has run. *)
Definition get_vocabulary_ : method (dict Z) :=
  fun self =>
    (match vocabulary_ self with
     | Some vocabulary => Ok vocabulary
     | None => Raise AttributeError
     end, self).

(** [self.vocabulary_ = vocabulary]. *)
Definition set_vocabulary_ (vocabulary : dict Z) : method unit :=
  fun self =>
    (Ok tt, {| vocabulary_size := vocabulary_size self;
               vocabulary_ := Some vocabulary |}).

(** [return self]. *)
Definition this : method WordCounterToVectorTransformer :=
  fun self => (Ok self, self).

(** A [for] loop over [l] with the local variables [a]; the first
    exception ends it. *)
Fixpoint for_each {A B : Type} (body : A -> B -> method A) (l : list B)
  (a : A) : method A :=
  match l with
  | [] => ret a
  | b :: l' => a' <- body a b ;; for_each body l' a'
  end.

(** What a call returns, and the object after the call. *)
Definition value {A : Type} (m : method A)
  (self : WordCounterToVectorTransformer) : result A := fst (m self).

Definition after {A : Type} (m : method A)
  (self : WordCounterToVectorTransformer) : WordCounterToVectorTransformer :=
  snd (m self).

(** A method is read-only when it leaves every object as it found it,
    whether it returns or raises. *)
Definition read_only {A : Type} (m : method A) : Prop :=
  forall self, after m self = self.

(** ** [fit] *)

(** Lines 248-249, the inner loop: every pair of one message adds its
    count, capped at 10. *)
Definition add_message (total_count : Counter) (word_count : Counter)
  : Counter :=
  fold_left (fun total_count '(word, count) =>
               add total_count word (Z.min count 10))
            word_count total_count.

(** Lines 246-249. *)
Definition total_count (X : list Counter) : Counter :=
  fold_left add_message X [].

(** Lines 250-253. *)
Definition vocabulary_of (X : list Counter) (size : Z) : dict Z :=
  let most_common := PyList.slice_to (most_common (total_count X)) size in
  fold_left (fun vocabulary '(index, (word, count)) =>
               set vocabulary word (index + 1)%Z)
            (PyList.enumerate most_common) [].

(** Lines 245-254. *)
Definition fit (X : list Counter) : method WordCounterToVectorTransformer :=
  size <- get_vocabulary_size ;;
  _ <- set_vocabulary_ (vocabulary_of X size) ;;
  this.

(** ** [transform] *)

(** Lines 262-264, the body of the inner loop: one append to each of
    [rows], [cols] and [data]. *)
Definition append_entry (row : Z) (lists : list Z * list Z * list Z)
  (item : string * Z) : method (list Z * list Z * list Z) :=
  let '(rows, cols, data) := lists in
  let '(word, count) := item in
  vocabulary <- get_vocabulary_ ;;
  ret (rows ++ [row], cols ++ [get_default vocabulary word 0%Z],
       data ++ [count]).

(** Lines 257-264: the three lists after the loops. *)
Definition triples (X : list Counter) : method (list Z * list Z * list Z) :=
  for_each
    (fun lists '(row, word_count) =>
       for_each (append_entry row) word_count lists)
    (PyList.enumerate X) ([], [], []).

(** Lines 256-267. *)
Definition transform (X : list Counter) : method SciPy.matrix :=
  lists <- triples X ;;
  let '(rows, cols, data) := lists in
  size <- get_vocabulary_size ;;
  lift (SciPy.csr_matrix data rows cols
          (Z.of_nat (length X), (size + 1)%Z)).

End WordCounterToVector.

(* ===================================================================== *)
(** * Notions used to state the properties *)
(* ===================================================================== *)

Module Spec.
Import PyDict.

(** [a] occurs in [l] somewhere before an occurrence of [b]. *)
Definition before {A : Type} (a b : A) (l : list A) : Prop :=
  exists l1 l2 l3, l = l1 ++ a :: l2 ++ b :: l3.

(** The order a stable sort, largest key first, puts the elements of [l]
    in: a greater key first, and among equal keys the order of [l]. *)
Definition sorted_order {A : Type} (key : A -> Z) (l : list A) (p q : A)
  : Prop :=
  (key p > key q)%Z \/ (key p = key q /\ before p q l).

(** The list [l] without its repetitions, each element where it first
    occurs. *)
Fixpoint first_occurrences (seen l : list string) : list string :=
  match l with
  | [] => []
  | w :: l' =>
      if existsb (String.eqb w) seen then first_occurrences seen l'
      else w :: first_occurrences (w :: seen) l'
  end.

(** The tokens of a batch in the order in which iterating the batch meets
    them for the first time. *)
Definition encounter_order (X : list Counter) : list string :=
  first_occurrences [] (flat_map keys X).

(** The sum over the messages of [min(count in that message, 10)]. *)
Definition capped_total (X : list Counter) (w : string) : Z :=
  fold_right (fun word_count s => (Z.min (count word_count w) 10 + s)%Z)
             0%Z X.

(** [w1] ranks strictly before [w2]: a larger capped total, or the same
    total and met earlier. *)
Definition outranks (X : list Counter) (w1 w2 : string) : Prop :=
  (capped_total X w1 > capped_total X w2)%Z
  \/ (capped_total X w1 = capped_total X w2
      /\ before w1 w2 (encounter_order X)).

(** The sum of [g] over the elements of [l] that satisfy [f]. *)
Definition sum_where {A : Type} (f : A -> bool) (g : A -> Z) (l : list A)
  : Z :=
  fold_right (fun a s => if f a then (g a + s)%Z else s) 0%Z l.

(** The column a token is counted in: its index, or 0 when the vocabulary
    does not have it. *)
Definition column (vocabulary : dict Z) (word : string) : Z :=
  match get vocabulary word with
  | Some index => index
  | None => 0%Z
  end.

(** What one message puts in column [j]: the counts, as they are, of its
    tokens of that column. *)
Definition column_total (vocabulary : dict Z) (word_count : Counter)
  (j : Z) : Z :=
  sum_where (fun '(word, _) => (column vocabulary word =? j)%Z) snd
            word_count.

(** The counts of the tokens of a message that the vocabulary lacks. *)
Definition unknown_total (vocabulary : dict Z) (word_count : Counter) : Z :=
  sum_where (fun '(word, _) =>
               match get vocabulary word with None => true | _ => false end)
            snd word_count.

(** The entries [(row, column, count)] that the loops of [transform]
    produce, in order, when the rows are numbered from [start]. *)
Definition entries_from (vocabulary : dict Z) (start : Z) (X : list Counter)
  : list (Z * Z * Z) :=
  flat_map (fun '(row, word_count) =>
              map (fun '(word, count) =>
                     (row, get_default vocabulary word 0%Z, count))
                  word_count)
           (PyList.enumerate_from start X).

Definition entries_of (vocabulary : dict Z) (X : list Counter)
  : list (Z * Z * Z) :=
  entries_from vocabulary 0%Z X.

Definition row_of (e : Z * Z * Z) : Z := fst (fst e).
Definition col_of (e : Z * Z * Z) : Z := snd (fst e).

(** The counts of a batch, in the order [transform] appends them to
    [data]. *)
Definition all_counts (X : list Counter) : list Z := flat_map (map snd) X.

(** The test [csr_matrix] makes on the indices of one entry. *)
Definition entry_in_range (nrows ncols : Z) (e : Z * Z * Z) : bool :=
  let '(i, j, _) := e in SciPy.in_range nrows i && SciPy.in_range ncols j.

(** The cell of a matrix, 0 outside of it. *)
Definition cell_at (m : list (list Z)) (i j : nat) : Z :=
  nth j (nth i m []) 0%Z.

(** A matrix of [nrows] rows of [ncols] cells. *)
Definition shaped (nrows ncols : nat) (m : list (list Z)) : Prop :=
  length m = nrows /\ Forall (fun row => length row = ncols) m.

(** The indices [1, 2, ...] given to a list of tokens in order. *)
Definition numbered (tokens : list string) : dict Z :=
  map (fun '(index, word) => (word, (index + 1)%Z))
      (PyList.enumerate tokens).

(** The content types [email_to_text] reads. *)
Definition is_plain (part : Email.Part) : bool :=
  String.eqb (Email.get_content_type part) "text/plain".

Definition is_html (part : Email.Part) : bool :=
  String.eqb (Email.get_content_type part) "text/html".

(** The last part of content type ["text/html"], if there is one. *)
Fixpoint last_html (parts : list Email.Part) : option Email.Part :=
  match parts with
  | [] => None
  | part :: rest =>
      match last_html rest with
      | Some h => Some h
      | None => if is_html part then Some part else None
      end
  end.

End Spec.

(* ===================================================================== *)
(** * Sample data *)
(* ===================================================================== *)

Module Samples.
Import PyDict Email EmailToWordCounter WordCounterToVector.

(** Three messages as counters, one of them stuffed with one token. *)
Definition sample_batch : list Counter :=
  [ [("free", 50%Z); ("now", 3%Z)];
    [("now", 4%Z); ("hello", 1%Z)];
    [("friend", 7%Z); ("now", 4%Z)] ].

Definition sample_fitted : WordCounterToVectorTransformer :=
  after (fit sample_batch) (init 2).

Definition text_part (content_type content : string) : Part :=
  {| get_content_type := content_type;
     get_content := Some content;
     get_payload := content |}.

Definition container : Part :=
  {| get_content_type := "multipart/alternative";
     get_content := None;
     get_payload := "" |}.

(** An HTML message whose body is the empty string. *)
Definition empty_html_part : Part := text_part "text/html" "".
Definition empty_html_message : Message := Leaf empty_html_part.

(** An HTML message. *)
Definition html_part : Part := text_part "text/html" Html.sample_html.
Definition html_message : Message :=
  Multipart container [Leaf (text_part "image/png" "..."); Leaf html_part].

(** An HTML alternative before the plain text, and one after it. *)
Definition plain_part : Part := text_part "text/plain" "Free money now".
Definition mixed_message : Message :=
  Multipart container
    [Leaf html_part; Leaf plain_part; Leaf (text_part "text/html" "<b>x</b>")].

(** An HTML part with a body, then one whose body is the empty string. *)
Definition trailing_empty_html_message : Message :=
  Multipart container [Leaf html_part; Leaf empty_html_part].

(** A message without text. *)
Definition image_message : Message := Leaf (text_part "image/png" "...").

Definition all_enabled : EmailToWordCounterTransformer :=
  {| strip_headers := true; lower_case := true; remove_punctuation := true;
     replace_urls := true; replace_numbers := true; stemming := true |}.

Definition headers_kept : EmailToWordCounterTransformer :=
  {| strip_headers := false; lower_case := true; remove_punctuation := true;
     replace_urls := true; replace_numbers := true; stemming := true |}.

(** Stand-ins for the packages: an extractor that finds ["example.com"]
    where the text has it, a stemmer that drops a final ["s"], and a set
    iterated in the order of first insertion. *)
Definition sample_find_urls (text : string) : list string :=
  if PyStr.contains "example.com" text then ["example.com"] else [].

Definition sample_stem (word : string) : string :=
  match PyStr.rev_string "" word with
  | String c rest =>
      if Ascii.eqb c "s"%char then PyStr.rev_string "" rest else word
  | EmptyString => word
  end.

Definition sample_list_set (l : list string) : list string :=
  Spec.first_occurrences [] l.

End Samples.
Import Samples.

(* ===================================================================== *)
(** * The structure of a message, and the two stages in sequence *)
(* ===================================================================== *)

Module Structure.
Import PyDict Email.

(** [sep.join(l)]. *)
Fixpoint join (sep : string) (l : list string) : string :=
  match l with
  | [] => ""
  | [x] => x
  | x :: l' => (x ++ sep ++ join sep l')%string
  end.

(** Lines 62-70. A message whose payload is a list is a [Multipart]; the
    first branch, for an argument that is a [str], has no counterpart
    here: a [Message] is never a string. *)
Fixpoint get_email_structure (email : Message) : string :=
  match email with
  | Leaf p => get_content_type p
  | Multipart _ payload =>
      ("multipart(" ++ join ", " (map get_email_structure payload) ++ ")")
        %string
  end.

(** Lines 76-81. *)
Definition structures_counter (emails : list Message) : Counter :=
  fold_left (fun structures email =>
               add structures (get_email_structure email) 1%Z)
            emails [].

(** Lines 128-132: the messages of a list whose structure is
    ["text/html"]. *)
Definition html_emails (emails : list Message) : list Message :=
  filter (fun email => String.eqb (get_email_structure email) "text/html")
         emails.

End Structure.

(** The two stages chained as [sklearn.pipeline.Pipeline] chains them
    (lines 281-288 and 300): [fit_transform] fits each stage on what the
    stage before it gives and applies it, [transform] applies each
    stage. The word-counter stage keeps no state; the object the methods
    run on is the one of the vocabulary stage. *)
Module Pipeline.
Import PyDict Email WordCounterToVector.

Section Stages.
Variable url_extractor : option (string -> list string).
Variable stemmer : option (string -> string).
Variable list_set : list string -> list string.
Variable T : Html.CharRefs.
Variable email_to_wordcount : EmailToWordCounter.EmailToWordCounterTransformer.

(** The first stage: [fit(X).transform(X)], and [transform(X)]. *)
Definition wordcount_fit_transform (X : list Message) : list Counter :=
  EmailToWordCounter.transform url_extractor stemmer list_set T
    (EmailToWordCounter.fit email_to_wordcount X) X.

Definition wordcount_transform (X : list Message) : list Counter :=
  EmailToWordCounter.transform url_extractor stemmer list_set T
    email_to_wordcount X.

(** [preprocess_pipeline.fit_transform(X)]. *)
Definition fit_transform (X : list Message) : method SciPy.matrix :=
  let Xt := wordcount_fit_transform X in
  _ <- fit Xt ;;
  transform Xt.

(** [preprocess_pipeline.transform(X)]. *)
Definition transform (X : list Message) : method SciPy.matrix :=
  WordCounterToVector.transform (wordcount_transform X).
End Stages.

End Pipeline.

(** Notions used to state the further properties. *)
Module Notions.
Import PyDict.

(** Every character of [s] satisfies [f]. *)
Fixpoint every (f : ascii -> bool) (s : string) : bool :=
  match s with
  | EmptyString => true
  | String c s' => f c && every f s'
  end.

(** The characters of [s] that satisfy [f], in order. *)
Fixpoint keep (f : ascii -> bool) (s : string) : string :=
  match s with
  | EmptyString => EmptyString
  | String c s' => if f c then String c (keep f s') else keep f s'
  end.

Definition is_char (a : ascii) (c : ascii) : bool := Ascii.eqb c a.

Definition starts_with_space (s : string) : bool :=
  match s with
  | String c _ => is_char " " c
  | EmptyString => false
  end.

(** No two spaces side by side. *)
Fixpoint single_spaced (s : string) : bool :=
  match s with
  | EmptyString => true
  | String c s' =>
      negb (is_char " " c && starts_with_space s') && single_spaced s'
  end.

(** A character that ["\W"] matches. *)
Definition non_word_char (c : ascii) : bool := negb (PyStr.isword c).

(** A character that no step of [html_to_plain_text] acts on. *)
Definition plain_char (c : ascii) : bool :=
  negb (is_char "<" c || is_char "&" c || is_char "010" c).

(** A token of [str.split()]: not empty, without white space. *)
Definition token (w : string) : Prop :=
  w <> "" /\ every (fun c => negb (PyStr.isspace c)) w = true.

(** The concatenation of a list of strings. *)
Definition concat_strings (l : list string) : string :=
  fold_right String.append EmptyString l.

(** The sum of a list of integers. *)
Definition sum_list (l : list Z) : Z := fold_right Z.add 0%Z l.

(** The sum of the counts of a counter. *)
Definition total (c : Counter) : Z := sum_list (map snd c).

(** How many times [w] occurs in [words]. *)
Definition occurrences (w : string) (words : list string) : Z :=
  Z.of_nat (count_occ string_dec words w).

(** The message has the token [w]. *)
Definition has_token (w : string) (word_count : Counter) : bool :=
  existsb (String.eqb w) (keys word_count).

(** The length of [l[:stop]] for a list of [n] elements. *)
Definition slice_length (n : nat) (stop : Z) : nat :=
  if (stop <? 0)%Z then Z.to_nat (Z.of_nat n + stop)
  else Nat.min (Z.to_nat stop) n.

End Notions.

(* ===================================================================== *)
(** * Dictionaries and counters *)
(* ===================================================================== *)

Section DictFacts.
Import PyDict.
Context {V : Type}.
Implicit Types (d : dict V) (k : string) (v : V).

Lemma get_In_keys d k v : get d k = Some v -> In k (keys d).
Proof.
  induction d as [|[k' v'] d IH]; simpl; [discriminate|].
  destruct (String.eqb_spec k' k); auto.
Qed.

Lemma get_None_keys d k : get d k = None <-> ~ In k (keys d).
Proof.
  induction d as [|[k' v'] d IH]; simpl; [tauto|].
  destruct (String.eqb_spec k' k); [|tauto].
  split; [discriminate|]. intros H; exfalso; auto.
Qed.

Lemma get_In d k v : get d k = Some v -> In (k, v) d.
Proof.
  induction d as [|[k' v'] d IH]; simpl; [discriminate|].
  destruct (String.eqb_spec k' k).
  - intros [= ->]. subst. auto.
  - auto.
Qed.

Lemma In_get d k v : wf d -> In (k, v) d -> get d k = Some v.
Proof.
  unfold wf. induction d as [|[k' v'] d IH]; simpl; [tauto|].
  intros Hnd [[= -> ->]|Hin].
  - now rewrite String.eqb_refl.
  - inversion Hnd; subst.
    destruct (String.eqb_spec k' k); [|auto].
    subst. exfalso. apply H1. change k with (fst (k, v)). now apply in_map.
Qed.

Lemma get_set_same d k v : get (set d k v) k = Some v.
Proof.
  induction d as [|[k' v'] d IH]; simpl.
  - now rewrite String.eqb_refl.
  - destruct (String.eqb_spec k' k) as [->|Hne]; simpl.
    + now rewrite String.eqb_refl.
    + destruct (String.eqb_spec k' k); [contradiction|exact IH].
Qed.

Lemma get_set_other d k k' v : k <> k' -> get (set d k v) k' = get d k'.
Proof.
  intros Hne. induction d as [|[k0 v0] d IH]; simpl.
  - destruct (String.eqb_spec k k'); [contradiction|reflexivity].
  - destruct (String.eqb_spec k0 k) as [->|H0]; simpl.
    + destruct (String.eqb_spec k k'); [contradiction|reflexivity].
    + now rewrite IH.
Qed.

(** Writing a key never moves another one: a new key goes last. *)
Lemma keys_set d k v :
  keys (set d k v)
  = if existsb (String.eqb k) (keys d) then keys d else keys d ++ [k].
Proof.
  induction d as [|[k' v'] d IH]; simpl; [reflexivity|].
  rewrite (String.eqb_sym k k').
  destruct (String.eqb_spec k' k) as [->|Hne]; simpl; [reflexivity|].
  rewrite IH. now destruct (existsb (String.eqb k) (keys d)).
Qed.

Lemma set_fresh d k v : ~ In k (keys d) -> set d k v = d ++ [(k, v)].
Proof.
  induction d as [|[k' v'] d IH]; simpl; [reflexivity|].
  intros Hn. destruct (String.eqb_spec k' k) as [->|Hne]; [tauto|].
  rewrite IH; tauto.
Qed.

Lemma existsb_eqb_In k (l : list string) :
  existsb (String.eqb k) l = true <-> In k l.
Proof.
  rewrite existsb_exists. split.
  - intros [x [Hin Heq]]. apply String.eqb_eq in Heq. now subst.
  - intros Hin. exists k. split; [assumption|apply String.eqb_refl].
Qed.

Lemma wf_set d k v : wf d -> wf (set d k v).
Proof.
  unfold wf. intros Hd. rewrite keys_set.
  destruct (existsb (String.eqb k) (keys d)) eqn:E; [assumption|].
  apply NoDup_app; [assumption|repeat constructor; simpl; tauto|].
  intros x Hx [<-|[]].
  apply existsb_eqb_In in Hx. congruence.
Qed.

End DictFacts.

Section CounterFacts.
Import PyDict Spec WordCounterToVector.
Implicit Types (c : Counter) (k w : string) (n : Z).

Lemma count_add c k n w :
  count (add c k n) w = (count c w + if String.eqb k w then n else 0)%Z.
Proof.
  unfold count, add, get_default.
  destruct (String.eqb_spec k w) as [->|Hne].
  - rewrite get_set_same. reflexivity.
  - rewrite get_set_other by assumption. lia.
Qed.

Lemma wf_add c k n : wf c -> wf (add c k n).
Proof. apply wf_set. Qed.

Lemma keys_add c k n :
  keys (add c k n)
  = if existsb (String.eqb k) (keys c) then keys c else keys c ++ [k].
Proof. apply keys_set. Qed.

Lemma In_count c w n : wf c -> In (w, n) c -> n = count c w.
Proof.
  intros Hwf Hin. unfold count, get_default.
  now rewrite (In_get c w n Hwf Hin).
Qed.

Lemma total_count_fold X :
  total_count X = fold_left add_message X [].
Proof. reflexivity. Qed.

Lemma count_add_message word_count total w :
  count (add_message total word_count) w
  = (count total w
     + sum_where (fun '(word, _) => String.eqb word w)
                 (fun '(_, n) => Z.min n 10) word_count)%Z.
Proof.
  unfold add_message. revert total.
  induction word_count as [|[k n] l IH]; intros total; simpl; [lia|].
  rewrite IH, count_add. destruct (String.eqb k w); lia.
Qed.

(** With unique keys the pairs of a token are at most one, and what they
    add is [min(count, 10)], nothing when the token is absent. *)
Lemma capped_pairs word_count w :
  wf word_count ->
  sum_where (fun '(word, _) => String.eqb word w)
            (fun '(_, n) => Z.min n 10) word_count
  = Z.min (count word_count w) 10.
Proof.
  unfold wf, count, get_default.
  induction word_count as [|[k n] l IH]; simpl; intros Hnd; [reflexivity|].
  inversion Hnd as [|? ? Hk Hl]; subst.
  destruct (String.eqb_spec k w) as [->|Hne].
  - replace (sum_where _ _ l) with 0%Z; [lia|].
    clear IH Hnd Hl. induction l as [|[k' n'] l IH]; simpl; [reflexivity|].
    simpl in Hk. destruct (String.eqb_spec k' w); [tauto|]. apply IH. tauto.
  - now apply IH.
Qed.

Lemma wf_add_message word_count total :
  wf total -> wf (add_message total word_count).
Proof.
  unfold add_message. revert total.
  induction word_count as [|[k n] l IH]; intros total H; simpl; [assumption|].
  apply IH, wf_add, H.
Qed.

Lemma fold_add_message_wf X total :
  wf total -> wf (fold_left add_message X total).
Proof.
  revert total. induction X as [|wc X IH]; intros total H; simpl; auto.
  apply IH, wf_add_message, H.
Qed.

Lemma wf_total_count X : wf (total_count X).
Proof. apply fold_add_message_wf. constructor. Qed.

Lemma count_fold_add_message X total w :
  Forall wf X ->
  count (fold_left add_message X total) w
  = (count total w + capped_total X w)%Z.
Proof.
  intros HX. revert total.
  induction HX as [|wc X Hwc HX IH]; intros total; simpl; [lia|].
  rewrite IH, count_add_message, capped_pairs by assumption. lia.
Qed.

(** The counter of line 246 holds, for every token, the sum over the
    messages of its capped counts. *)
Lemma count_total_count X w :
  Forall wf X -> count (total_count X) w = capped_total X w.
Proof.
  intros HX. rewrite total_count_fold, count_fold_add_message by assumption.
  reflexivity.
Qed.

(** Keys enter the counter in the order the loops meet them. *)
Lemma first_occurrences_app seen l1 l2 :
  first_occurrences seen (l1 ++ l2)
  = first_occurrences seen l1
    ++ first_occurrences (rev (first_occurrences seen l1) ++ seen) l2.
Proof.
  revert seen. induction l1 as [|w l1 IH]; intros seen; simpl; [reflexivity|].
  destruct (existsb (String.eqb w) seen) eqn:E.
  - apply IH.
  - simpl. rewrite IH. f_equal. f_equal. now rewrite <- app_assoc.
Qed.

Lemma first_occurrences_ext seen seen' l :
  (forall w, In w seen <-> In w seen') ->
  first_occurrences seen l = first_occurrences seen' l.
Proof.
  revert seen seen'. induction l as [|w l IH]; intros seen seen' H; simpl.
  - reflexivity.
  - assert (E : existsb (String.eqb w) seen = existsb (String.eqb w) seen').
    { apply eq_true_iff_eq. rewrite !existsb_eqb_In. apply H. }
    rewrite E. destruct (existsb (String.eqb w) seen').
    + now apply IH.
    + f_equal. apply IH. intros x. simpl. rewrite H. tauto.
Qed.

Lemma keys_add_message word_count total :
  keys (add_message total word_count)
  = keys total ++ first_occurrences (keys total) (keys word_count).
Proof.
  unfold add_message. revert total.
  induction word_count as [|[k n] l IH]; intros total; simpl.
  - now rewrite app_nil_r.
  - rewrite IH, keys_add.
    destruct (existsb (String.eqb k) (keys total)) eqn:E; [reflexivity|].
    rewrite <- app_assoc. simpl. f_equal. f_equal.
    apply first_occurrences_ext. intros x. rewrite in_app_iff. simpl. tauto.
Qed.

Lemma keys_fold_add_message X total :
  keys (fold_left add_message X total)
  = keys total ++ first_occurrences (keys total) (flat_map keys X).
Proof.
  revert total. induction X as [|wc X IH]; intros total; simpl.
  - now rewrite app_nil_r.
  - rewrite IH, keys_add_message, first_occurrences_app, <- app_assoc.
    f_equal. f_equal. apply first_occurrences_ext.
    intros x. rewrite !in_app_iff, <- in_rev. tauto.
Qed.

Lemma keys_total_count X : keys (total_count X) = encounter_order X.
Proof. rewrite total_count_fold. apply keys_fold_add_message. Qed.

Lemma In_first_occurrences seen l w :
  In w (first_occurrences seen l) <-> In w l /\ ~ In w seen.
Proof.
  revert seen. induction l as [|x l IH]; intros seen; simpl; [tauto|].
  destruct (existsb (String.eqb x) seen) eqn:E.
  - rewrite IH. apply existsb_eqb_In in E.
    split; [tauto|]. intros [[->|H] Hn]; tauto.
  - assert (Hx : ~ In x seen) by (rewrite <- existsb_eqb_In; congruence).
    simpl. rewrite IH. simpl.
    destruct (string_dec x w) as [->|Hne]; tauto.
Qed.

Lemma In_encounter_order X w :
  In w (encounter_order X) <-> exists wc, In wc X /\ In w (keys wc).
Proof.
  unfold encounter_order. rewrite In_first_occurrences, in_flat_map.
  simpl. tauto.
Qed.

End CounterFacts.

(* ===================================================================== *)
(** * The stable sort *)
(* ===================================================================== *)

Section SortFacts.
Import PyList Spec.
Context {A : Type} (key : A -> Z).

Lemma insert_desc_perm x l : Permutation (insert_desc key x l) (x :: l).
Proof.
  induction l as [|y l IH]; simpl; [reflexivity|].
  destruct (key x <? key y)%Z; [|reflexivity].
  rewrite IH. apply perm_swap.
Qed.

Lemma sorted_reverse_perm l : Permutation (sorted_reverse key l) l.
Proof.
  induction l as [|x l IH]; simpl; [reflexivity|].
  rewrite insert_desc_perm. now constructor.
Qed.

Lemma StronglySorted_impl (R1 R2 : A -> A -> Prop) l :
  (forall a b, R1 a b -> R2 a b) ->
  StronglySorted R1 l -> StronglySorted R2 l.
Proof.
  intros H. induction 1 as [|a l Hs IH Hf]; constructor; auto.
  eapply Forall_impl; [|exact Hf]. auto.
Qed.

(** Inserting keeps any order [R] that refines "key not smaller", once
    [x] is known to stand in [R] to the elements it meets. *)
Lemma insert_desc_sorted (R : A -> A -> Prop) x s :
  (forall a b, R a b -> (key a >= key b)%Z) ->
  (forall y, In y s -> (key x < key y)%Z -> R y x) ->
  (forall z, In z s -> (key z <= key x)%Z -> R x z) ->
  StronglySorted R s -> StronglySorted R (insert_desc key x s).
Proof.
  intros Hkey. induction s as [|y s IH]; intros Hup Hdown Hs; simpl.
  - repeat constructor.
  - inversion Hs as [|? ? Hs' Hy]; subst.
    destruct (Z.ltb_spec (key x) (key y)) as [Hlt|Hge].
    + constructor.
      * apply IH; auto; intros; [apply Hup|apply Hdown]; simpl; auto.
      * apply Forall_forall. intros z Hz.
        apply (Permutation_in _ (insert_desc_perm x s)) in Hz.
        destruct Hz as [<-|Hz]; [apply Hup; simpl; auto|].
        rewrite Forall_forall in Hy. auto.
    + constructor; [assumption|].
      apply Forall_forall. intros z Hz. apply Hdown; [assumption|].
      destruct Hz as [<-|Hz]; [lia|].
      rewrite Forall_forall in Hy. specialize (Hkey _ _ (Hy z Hz)). lia.
Qed.

Lemma before_cons (a b x : A) l : before a b l -> before a b (x :: l).
Proof.
  intros (l1 & l2 & l3 & ->). now exists (x :: l1), l2, l3.
Qed.

Lemma before_head (a b : A) l : In b l -> before a b (a :: l).
Proof.
  intros Hin. apply in_split in Hin as (l2 & l3 & ->).
  now exists [], l2, l3.
Qed.

Lemma sorted_reverse_stable l :
  StronglySorted (sorted_order key l) (sorted_reverse key l).
Proof.
  induction l as [|x l IH]; simpl; [constructor|].
  apply insert_desc_sorted.
  - intros a b [H|[H _]]; lia.
  - intros y _ Hlt. left. lia.
  - intros z Hz Hle. apply (Permutation_in _ (sorted_reverse_perm l)) in Hz.
    destruct (Z.eq_dec (key x) (key z)) as [E|E].
    + right. split; [assumption|]. now apply before_head.
    + left. lia.
  - eapply StronglySorted_impl; [|exact IH].
    intros a b [H|[H Hb]]; [now left|right]. split; [assumption|].
    now apply before_cons.
Qed.

End SortFacts.

Section ListFacts.
Import PyList Spec.

Lemma before_map {A B : Type} (f : A -> B) a b l :
  before a b l -> before (f a) (f b) (map f l).
Proof.
  intros (l1 & l2 & l3 & ->).
  exists (map f l1), (map f l2), (map f l3).
  now rewrite map_app; simpl; rewrite map_app.
Qed.

Lemma StronglySorted_map {A B : Type} (f : A -> B)
  (R : A -> A -> Prop) (R' : B -> B -> Prop) l :
  (forall a b, In a l -> In b l -> R a b -> R' (f a) (f b)) ->
  StronglySorted R l -> StronglySorted R' (map f l).
Proof.
  intros H Hs. induction Hs as [|a l Hs IH Hf]; simpl; constructor.
  - apply IH. intros; apply H; simpl; auto.
  - apply Forall_forall. intros y Hy.
    apply in_map_iff in Hy as (b & <- & Hb).
    rewrite Forall_forall in Hf. apply H; simpl; auto.
Qed.

Lemma NoDup_firstn {A : Type} n (l : list A) : NoDup l -> NoDup (firstn n l).
Proof.
  intros H. rewrite <- (firstn_skipn n l) in H.
  now apply NoDup_app_remove_r in H.
Qed.

Lemma enumerate_from_length {A : Type} i (l : list A) :
  length (enumerate_from i l) = length l.
Proof.
  revert i. induction l as [|x l IH]; intros i; simpl; [reflexivity|].
  now rewrite IH.
Qed.

Lemma enumerate_from_nth {A : Type} i (l : list A) n :
  nth_error (enumerate_from i l) n
  = option_map (fun x => ((i + Z.of_nat n)%Z, x)) (nth_error l n).
Proof.
  revert i n. induction l as [|x l IH]; intros i [|n]; simpl; try reflexivity.
  - now rewrite Z.add_0_r.
  - rewrite IH. destruct (nth_error l n); simpl; [|reflexivity].
    do 2 f_equal. lia.
Qed.

End ListFacts.

(* ===================================================================== *)
(** * The vocabulary stage: [fit] *)
(* ===================================================================== *)

Section FitFacts.
Import PyList PyDict Spec WordCounterToVector.

Lemma keys_numbered l : keys (numbered l) = l.
Proof.
  unfold numbered, enumerate, keys. generalize 0%Z.
  induction l as [|w l IH]; intros i; simpl; [reflexivity|].
  now rewrite IH.
Qed.

Lemma nth_numbered l n :
  nth_error (numbered l) n
  = option_map (fun w => (w, (Z.of_nat n + 1)%Z)) (nth_error l n).
Proof.
  unfold numbered, enumerate.
  rewrite nth_error_map, enumerate_from_nth.
  now destruct (nth_error l n).
Qed.

Lemma get_numbered l n w :
  NoDup l -> nth_error l n = Some w ->
  get (numbered l) w = Some (Z.of_nat n + 1)%Z.
Proof.
  intros Hnd Hn. apply In_get.
  - unfold wf. now rewrite keys_numbered.
  - apply (nth_error_In _ n). now rewrite nth_numbered, Hn.
Qed.

Lemma get_numbered_inv l w i :
  get (numbered l) w = Some i ->
  exists n, i = (Z.of_nat n + 1)%Z /\ nth_error l n = Some w.
Proof.
  intros H. apply get_In, In_nth_error in H as [n Hn].
  exists n. rewrite nth_numbered in Hn.
  destruct (nth_error l n); simpl in Hn; [|discriminate].
  now injection Hn as -> <-.
Qed.

(** The dictionary comprehension of lines 251-253, on tokens that are all
    different. *)
Lemma comprehension_numbered (l : list (string * Z)) i acc :
  NoDup (keys acc ++ keys l) ->
  fold_left (fun vocabulary '(index, (word, count)) =>
               set vocabulary word (index + 1)%Z)
            (enumerate_from i l) acc
  = acc ++ map (fun '(index, word) => (word, (index + 1)%Z))
               (enumerate_from i (keys l)).
Proof.
  revert i acc. induction l as [|[w n] l IH]; intros i acc Hnd; simpl.
  - now rewrite app_nil_r.
  - simpl in Hnd. rewrite set_fresh.
    + rewrite IH, <- app_assoc; [reflexivity|].
      unfold keys in *. rewrite map_app, <- app_assoc. exact Hnd.
    + apply NoDup_remove_2 in Hnd. rewrite in_app_iff in Hnd. tauto.
Qed.

Lemma wf_most_common (c : Counter) : wf c -> wf (most_common c).
Proof.
  unfold wf, keys, most_common. intros H.
  eapply Permutation_NoDup; [|exact H].
  apply Permutation_map, Permutation_sym, sorted_reverse_perm.
Qed.

Lemma slice_to_firstn {A : Type} (l : list A) stop :
  exists n, slice_to l stop = firstn n l
            /\ ((0 <= stop)%Z -> n = Z.to_nat stop).
Proof.
  unfold slice_to. destruct (Z.ltb_spec stop 0).
  - eexists. split; [reflexivity|lia].
  - eexists. split; reflexivity.
Qed.

(** [fit] numbers, from 1, the front of the ranking. *)
Lemma vocabulary_of_numbered X size :
  vocabulary_of X size
  = numbered (keys (slice_to (most_common (total_count X)) size)).
Proof.
  unfold vocabulary_of, enumerate.
  rewrite comprehension_numbered; [reflexivity|]. simpl.
  destruct (slice_to_firstn (most_common (total_count X)) size)
    as (n & -> & _).
  unfold keys. rewrite <- firstn_map. apply NoDup_firstn.
  apply wf_most_common, wf_total_count.
Qed.

Lemma vocabulary_of_front X size :
  (0 <= size)%Z ->
  vocabulary_of X size
  = numbered (firstn (Z.to_nat size) (keys (most_common (total_count X)))).
Proof.
  intros Hsize. rewrite vocabulary_of_numbered. unfold slice_to.
  destruct (Z.ltb_spec size 0); [lia|].
  unfold keys. now rewrite firstn_map.
Qed.

(** Indices start at 1, stop at the vocabulary size and follow the
    ranking. *)
Lemma vocabulary_of_index X size w i :
  (0 <= size)%Z ->
  get (vocabulary_of X size) w = Some i ->
  (1 <= i <= size)%Z
  /\ nth_error (keys (most_common (total_count X))) (Z.to_nat (i - 1))
     = Some w.
Proof.
  intros Hsize Hg. rewrite vocabulary_of_front in Hg by assumption.
  apply get_numbered_inv in Hg as (n & -> & Hn).
  rewrite nth_error_firstn in Hn.
  destruct (Nat.ltb_spec n (Z.to_nat size)); [|discriminate].
  replace (Z.to_nat (Z.of_nat n + 1 - 1)) with n by lia.
  split; [lia|assumption].
Qed.

(** The ranking as tokens: every token of the batch once, in the order
    [outranks]. *)
Lemma ranking_perm X :
  Permutation (keys (most_common (total_count X))) (encounter_order X).
Proof.
  rewrite <- keys_total_count. unfold keys, most_common.
  apply Permutation_map, sorted_reverse_perm.
Qed.

Lemma ranking_sorted X :
  Forall wf X ->
  StronglySorted (outranks X) (keys (most_common (total_count X))).
Proof.
  intros HX. unfold keys, most_common.
  eapply StronglySorted_map; [|apply sorted_reverse_stable].
  intros [w1 n1] [w2 n2] H1 H2 Hord.
  apply (Permutation_in _ (sorted_reverse_perm snd _)) in H1, H2.
  apply In_count in H1, H2; try apply wf_total_count.
  rewrite count_total_count in H1, H2 by assumption. simpl in *. subst.
  destruct Hord as [H|[H Hb]]; [now left|right].
  split; [assumption|].
  rewrite <- keys_total_count. now apply (before_map fst) in Hb.
Qed.

Lemma vocabulary_keys_nodup X size :
  NoDup (keys (slice_to (most_common (total_count X)) size)).
Proof.
  destruct (slice_to_firstn (most_common (total_count X)) size)
    as (n & -> & _).
  unfold keys. rewrite <- firstn_map. apply NoDup_firstn.
  apply wf_most_common, wf_total_count.
Qed.

(** Every entry of the ranking holds the capped total of its token. *)
Lemma ranking_totals X w n :
  Forall wf X ->
  In (w, n) (most_common (total_count X)) -> n = capped_total X w.
Proof.
  intros HX Hin.
  apply (Permutation_in _ (sorted_reverse_perm snd (total_count X))) in Hin.
  apply In_count in Hin; [|apply wf_total_count].
  now rewrite count_total_count in Hin.
Qed.

Lemma ranking_descending X :
  StronglySorted (fun p q => (snd p >= snd q)%Z)
                 (most_common (total_count X)).
Proof.
  eapply StronglySorted_impl; [|apply sorted_reverse_stable].
  intros a b [H|[H _]]; lia.
Qed.

Lemma StronglySorted_nth {A : Type} (R : A -> A -> Prop) l a b x y :
  StronglySorted R l -> a < b ->
  nth_error l a = Some x -> nth_error l b = Some y -> R x y.
Proof.
  intros Hs. revert a b.
  induction Hs as [|z l Hs IH Hf]; intros a b Hlt Ha Hb.
  - now destruct a.
  - destruct b as [|b]; [lia|]. simpl in Hb. destruct a as [|a].
    + injection Ha as <-. rewrite Forall_forall in Hf.
      eapply Hf, nth_error_In, Hb.
    + simpl in Ha. apply (IH a b); (assumption || lia).
Qed.

End FitFacts.

Section FitClaims.
Import PyList PyDict Spec WordCounterToVector.

(** [fit] never raises, returns the object and stores the vocabulary of
    the batch for the size the object has. *)
Lemma after_fit self X :
  after (fit X) self
  = {| vocabulary_size := vocabulary_size self;
       vocabulary_ := Some (vocabulary_of X (vocabulary_size self)) |}.
Proof. reflexivity. Qed.

Lemma value_fit self X : value (fit X) self = Ok (after (fit X) self).
Proof. reflexivity. Qed.

Lemma sample_batch_wf : Forall wf sample_batch.
Proof.
  unfold sample_batch, wf, keys.
  repeat constructor; simpl; intuition discriminate.
Defined.

(** C1. [fit] ranks each token by the sum over the messages of
    [min(count in that message, 10)], whatever the vocabulary size. The
    ranking it sorts holds exactly the tokens of the batch, each with that
    sum, in descending order of it. The vocabulary it stores is the slice
    [[:vocabulary_size]] of that ranking numbered from 1: the token at
    position [n] of the slice has index [n + 1], a token of index [i] is
    the one at position [i - 1] and stands there with its capped sum, a
    smaller index goes with a capped sum that is not smaller, and no token
    of the batch left out of the vocabulary has a larger capped sum than a
    token in it. A message that has a token 50 times adds exactly 10 to
    that token's total. *)
Theorem fit_ranks_by_capped_counts
  (self : WordCounterToVectorTransformer) (X : list Counter) :
  Forall wf X ->
  let ranking := most_common (total_count X) in
  let chosen := slice_to ranking (vocabulary_size self) in
  (forall w, In w (keys ranking) <-> exists wc, In wc X /\ In w (keys wc))
  /\ (forall w n, In (w, n) ranking -> n = capped_total X w)
  /\ StronglySorted (fun p q => (snd p >= snd q)%Z) ranking
  /\ (exists vocabulary,
        vocabulary_ (after (fit X) self) = Some vocabulary
        /\ vocabulary = numbered (keys chosen)
        /\ (forall n w c,
              nth_error chosen n = Some (w, c) ->
              nth_error ranking n = Some (w, capped_total X w)
              /\ get vocabulary w = Some (Z.of_nat n + 1)%Z)
        /\ (forall w i,
              get vocabulary w = Some i ->
              (1 <= i)%Z
              /\ nth_error chosen (Z.to_nat (i - 1))
                 = Some (w, capped_total X w))
        /\ (forall w1 w2 i1 i2,
              get vocabulary w1 = Some i1 -> get vocabulary w2 = Some i2 ->
              (i1 < i2)%Z ->
              (capped_total X w1 >= capped_total X w2)%Z)
        /\ (forall w1 w2 i1,
              get vocabulary w1 = Some i1 -> get vocabulary w2 = None ->
              (exists wc, In wc X /\ In w2 (keys wc)) ->
              (capped_total X w1 >= capped_total X w2)%Z))
  /\ (forall X1 wc X2 w,
        X = X1 ++ wc :: X2 -> get wc w = Some 50%Z ->
        count (total_count X) w
        = (count (total_count (X1 ++ X2)) w + 10)%Z).
Proof.
  intros HX ranking chosen.
  assert (Hperm : Permutation (keys ranking) (encounter_order X))
    by apply ranking_perm.
  assert (Htot : forall w n, In (w, n) ranking -> n = capped_total X w)
    by (intros w n; now apply ranking_totals).
  assert (Hdesc : StronglySorted (fun p q => (snd p >= snd q)%Z) ranking)
    by apply ranking_descending.
  assert (Hbatch : forall w,
             In w (keys ranking) <-> exists wc, In wc X /\ In w (keys wc)).
  { intros w. rewrite <- In_encounter_order.
    split; apply Permutation_in; [|apply Permutation_sym]; exact Hperm. }
  destruct (slice_to_firstn ranking (vocabulary_size self))
    as (n0 & Hn0 & _).
  fold chosen in Hn0.
  assert (Hnd : NoDup (keys chosen)) by apply vocabulary_keys_nodup.
  assert (Hfront : forall n w c,
             nth_error chosen n = Some (w, c) ->
             n < n0 /\ nth_error ranking n = Some (w, capped_total X w)).
  { intros n w c Hn. rewrite Hn0, nth_error_firstn in Hn.
    destruct (Nat.ltb_spec n n0); [|discriminate].
    split; [assumption|].
    now rewrite Hn, (Htot w c (nth_error_In _ _ Hn)). }
  assert (Hpos : forall n w c,
             nth_error chosen n = Some (w, c) ->
             get (numbered (keys chosen)) w = Some (Z.of_nat n + 1)%Z).
  { intros n w c Hn. apply get_numbered; [exact Hnd|].
    unfold keys. now rewrite nth_error_map, Hn. }
  assert (Hinv : forall w i,
             get (numbered (keys chosen)) w = Some i ->
             (1 <= i)%Z
             /\ nth_error chosen (Z.to_nat (i - 1))
                = Some (w, capped_total X w)).
  { intros w i Hg. apply get_numbered_inv in Hg as (n & -> & Hn).
    replace (Z.to_nat (Z.of_nat n + 1 - 1)) with n by lia.
    split; [lia|]. unfold keys in Hn. rewrite nth_error_map in Hn.
    destruct (nth_error chosen n) as [[w' c]|] eqn:E; [|discriminate].
    simpl in Hn. injection Hn as ->.
    destruct (Hfront n w c E) as [Hlt Hr].
    rewrite Hn0, nth_error_firstn in E.
    destruct (Nat.ltb_spec n n0); [|discriminate]. congruence. }
  split; [exact Hbatch|]. split; [exact Htot|]. split; [exact Hdesc|].
  split.
  - exists (numbered (keys chosen)).
    split; [rewrite after_fit; simpl; now rewrite vocabulary_of_numbered|].
    split; [reflexivity|].
    split; [|split; [exact Hinv|split]].
    + intros n w c Hn. split; [now apply (Hfront n w c)|].
      now apply (Hpos n w c).
    + intros w1 w2 i1 i2 H1 H2 Hlt.
      apply Hinv in H1 as [Hi1 H1]. apply Hinv in H2 as [Hi2 H2].
      apply Hfront in H1 as [_ H1]. apply Hfront in H2 as [_ H2].
      assert (Hpos12 : Z.to_nat (i1 - 1) < Z.to_nat (i2 - 1)) by lia.
      exact (StronglySorted_nth _ _ _ _ _ _ Hdesc Hpos12 H1 H2).
    + intros w1 w2 i1 H1 H2 Hin.
      apply Hinv in H1 as [Hi1 H1]. apply Hfront in H1 as [Hlt1 H1].
      apply Hbatch in Hin. unfold keys in Hin.
      apply in_map_iff in Hin as ([w c2] & Hw & Hin). simpl in Hw. subst w.
      apply In_nth_error in Hin as [k Hk].
      destruct (Nat.ltb_spec k n0) as [Hlt|Hge].
      * assert (Hc : nth_error chosen k = Some (w2, c2)).
        { rewrite Hn0, nth_error_firstn.
          destruct (Nat.ltb_spec k n0); [assumption|lia]. }
        apply Hpos in Hc. congruence.
      * rewrite (Htot w2 c2 (nth_error_In _ _ Hk)) in Hk.
        assert (Hpos12 : Z.to_nat (i1 - 1) < k) by lia.
        exact (StronglySorted_nth _ _ _ _ _ _ Hdesc Hpos12 H1 Hk).
  - intros X1 wc X2 w -> Hw.
    assert (H12 : Forall wf (X1 ++ X2)).
    { apply Forall_app in HX as [H1 H2]. inversion H2; subst.
      apply Forall_app. now split. }
    rewrite !count_total_count by assumption.
    clear - Hw. induction X1 as [|wc1 X1 IH]; simpl.
    + unfold count at 1, get_default. rewrite Hw. lia.
    + rewrite IH. lia.
Qed.

Lemma fit_ranks_by_capped_counts_witness :
  Forall wf sample_batch
  /\ count (total_count sample_batch) "free" = 10%Z
  /\ vocabulary_ sample_fitted = Some [("now", 1%Z); ("free", 2%Z)].
Proof.
  split; [exact sample_batch_wf|].
  destruct (fit_ranks_by_capped_counts (init 2) sample_batch
              sample_batch_wf)
    as (_ & _ & _ & (vocabulary & Hfit & Hvoc & _) & H).
  split.
  - rewrite (H [] [("free", 50%Z); ("now", 3%Z)]
               [[("now", 4%Z); ("hello", 1%Z)];
                [("friend", 7%Z); ("now", 4%Z)]] "free");
      reflexivity.
  - unfold sample_fitted. rewrite Hfit, Hvoc. reflexivity.
Defined.

(** C2, as the code has it. For a vocabulary size that is not negative,
    the vocabulary of [fit] is the first [vocabulary_size] tokens of the
    ranking: the tokens
    of the batch by descending capped total, ties in the order the batch
    meets them; the n-th ranked token has index n (counting from 1), the
    dictionary lists them in that order, it has at most [vocabulary_size]
    entries, and no token has index 0. *)
Theorem fit_vocabulary_top_ranked
  (self : WordCounterToVectorTransformer) (X : list Counter) :
  Forall wf X ->
  (0 <= vocabulary_size self)%Z ->
  exists ranked vocabulary,
    vocabulary_ (after (fit X) self) = Some vocabulary
    /\ Permutation ranked (encounter_order X)
    /\ StronglySorted (outranks X) ranked
    /\ keys vocabulary = firstn (Z.to_nat (vocabulary_size self)) ranked
    /\ (forall n w,
          nth_error ranked n = Some w ->
          (Z.of_nat n < vocabulary_size self)%Z ->
          get vocabulary w = Some (Z.of_nat n + 1)%Z)
    /\ (forall w i,
          get vocabulary w = Some i ->
          (1 <= i <= vocabulary_size self)%Z
          /\ nth_error ranked (Z.to_nat (i - 1)) = Some w)
    /\ (Z.of_nat (length vocabulary) <= vocabulary_size self)%Z
    /\ (forall w, get vocabulary w <> Some 0%Z).
Proof.
  intros HX Hv.
  set (v := vocabulary_size self) in *.
  set (ranked := keys (most_common (total_count X))).
  assert (Hnd : NoDup ranked)
    by apply wf_most_common, wf_total_count.
  assert (Hvoc : vocabulary_of X v = numbered (firstn (Z.to_nat v) ranked))
    by now apply vocabulary_of_front.
  assert (Hinv : forall w i,
             get (vocabulary_of X v) w = Some i ->
             (1 <= i <= v)%Z
             /\ nth_error ranked (Z.to_nat (i - 1)) = Some w)
    by (intros w i; now apply vocabulary_of_index).
  exists ranked, (vocabulary_of X v).
  split; [reflexivity|].
  split; [apply ranking_perm|].
  split; [now apply ranking_sorted|].
  split; [now rewrite Hvoc, keys_numbered|].
  split; [|split; [exact Hinv|split]].
  - intros n w Hn Hlt. rewrite Hvoc.
    apply get_numbered; [now apply NoDup_firstn|].
    rewrite nth_error_firstn.
    destruct (Nat.ltb_spec n (Z.to_nat v)); [assumption|lia].
  - rewrite Hvoc. unfold numbered, enumerate.
    rewrite length_map, enumerate_from_length, length_firstn. lia.
  - intros w Hg. apply Hinv in Hg. lia.
Qed.

Lemma fit_vocabulary_top_ranked_witness :
  Forall wf sample_batch
  /\ exists vocabulary,
       vocabulary_ (after (fit sample_batch) (init 2)) = Some vocabulary
       /\ keys vocabulary = ["now"; "free"]
       /\ (Z.of_nat (length vocabulary) <= 2)%Z
       /\ get vocabulary "now" <> Some 0%Z.
Proof.
  split; [exact sample_batch_wf|].
  destruct (fit_vocabulary_top_ranked (init 2) sample_batch
              sample_batch_wf ltac:(simpl; lia))
    as (ranked & vocabulary & Hfit & _ & _ & _ & _ & _ & Hlen & Hzero).
  exists vocabulary.
  split; [exact Hfit|]. split; [|split; [exact Hlen|apply Hzero]].
  injection Hfit as <-. reflexivity.
Defined.

(** C2 as it is stated, for every vocabulary size, fails at the size -1:
    the slice [[:-1]] drops the last token of the ranking only, so that
    [fit] on the sample batch, of four tokens, stores three entries, which
    is more than the size. *)
Lemma fit_vocabulary_counterexample :
  Forall wf sample_batch
  /\ exists vocabulary,
       vocabulary_ (after (fit sample_batch) (init (-1))) = Some vocabulary
       /\ vocabulary = [("now", 1%Z); ("free", 2%Z); ("friend", 3%Z)]
       /\ ~ (Z.of_nat (length vocabulary) <= vocabulary_size (init (-1)))%Z.
Proof.
  split; [exact sample_batch_wf|].
  eexists. split; [reflexivity|]. split; [reflexivity|].
  vm_compute. intros H. now apply H.
Qed.

(** C8. [fit] is deterministic: two runs on the same batch with the same
    vocabulary size end with the same vocabulary, whatever either object
    held before, and so does a second run on the object the first run
    left. *)
Theorem fit_deterministic
  (self1 self2 : WordCounterToVectorTransformer) (X : list Counter) :
  vocabulary_size self1 = vocabulary_size self2 ->
  vocabulary_ (after (fit X) self1) = vocabulary_ (after (fit X) self2)
  /\ after (fit X) self1 = after (fit X) self2
  /\ after (fit X) (after (fit X) self1) = after (fit X) self1.
Proof.
  intros Hsize. rewrite !after_fit. simpl. rewrite Hsize. auto.
Qed.

Lemma fit_deterministic_witness :
  vocabulary_ (after (fit sample_batch) (init 2))
  = vocabulary_ (after (fit sample_batch)
                       (after (fit [[("other", 1%Z)]]) (init 2))).
Proof.
  apply (fit_deterministic
           (init 2) (after (fit [[("other", 1%Z)]]) (init 2)) sample_batch).
  reflexivity.
Defined.

End FitClaims.

(* ===================================================================== *)
(** * The sparse matrix *)
(* ===================================================================== *)

Section MatrixFacts.
Import Spec SciPy.

Lemma update_length {A : Type} (f : A -> A) i l :
  length (update f i l) = length l.
Proof.
  revert i. induction l as [|x l IH]; intros [|i]; simpl; auto.
Qed.

Lemma nth_update_same {A : Type} (f : A -> A) i l d :
  i < length l -> nth i (update f i l) d = f (nth i l d).
Proof.
  revert i. induction l as [|x l IH]; intros [|i] H; simpl in *;
    try lia; auto. apply IH. lia.
Qed.

Lemma nth_update_other {A : Type} (f : A -> A) i i' l d :
  i <> i' -> nth i' (update f i l) d = nth i' l d.
Proof.
  revert i i'. induction l as [|x l IH]; intros [|i] [|i'] H; simpl;
    try reflexivity; try congruence. apply IH. congruence.
Qed.

Lemma Forall_update {A : Type} (P : A -> Prop) (f : A -> A) i l :
  (forall x, P x -> P (f x)) -> Forall P l -> Forall P (update f i l).
Proof.
  intros Hf H. revert i. induction H as [|x l Hx Hl IH]; intros [|i]; simpl;
    constructor; auto.
Qed.

Lemma shaped_zeros nrows ncols : shaped nrows ncols (zeros nrows ncols).
Proof.
  unfold shaped, zeros. split; [apply repeat_length|].
  apply Forall_forall. intros row H. apply repeat_spec in H. subst.
  apply repeat_length.
Qed.

Lemma cell_at_zeros nrows ncols i j : cell_at (zeros nrows ncols) i j = 0%Z.
Proof.
  unfold cell_at, zeros.
  destruct (Nat.lt_ge_cases i nrows) as [H|H].
  - rewrite nth_repeat_lt by assumption.
    destruct (Nat.lt_ge_cases j ncols) as [H'|H'].
    + now rewrite nth_repeat_lt.
    + apply nth_overflow. now rewrite repeat_length.
  - rewrite (nth_overflow (repeat (repeat 0%Z ncols) nrows))
      by now rewrite repeat_length.
    now destruct j.
Qed.

Lemma shaped_add_at nrows ncols i j x m :
  shaped nrows ncols m -> shaped nrows ncols (add_at i j x m).
Proof.
  unfold shaped, add_at. intros [Hl Hr]. split.
  - now rewrite update_length.
  - apply Forall_update; [|assumption].
    intros row <-. apply update_length.
Qed.

Lemma cell_at_add_at nrows ncols i j x m i' j' :
  shaped nrows ncols m -> i < nrows -> j < ncols ->
  cell_at (add_at i j x m) i' j'
  = (cell_at m i' j' + if ((i =? i') && (j =? j'))%nat then x else 0)%Z.
Proof.
  unfold shaped, cell_at, add_at. intros [Hl Hr] Hi Hj.
  destruct (Nat.eqb_spec i i') as [<-|Hne]; simpl.
  - rewrite nth_update_same by lia.
    assert (Hrow : length (nth i m []) = ncols).
    { rewrite Forall_forall in Hr. apply Hr, nth_In. lia. }
    destruct (Nat.eqb_spec j j') as [<-|Hne].
    + rewrite nth_update_same by lia. reflexivity.
    + rewrite nth_update_other by assumption. lia.
  - rewrite nth_update_other by assumption. lia.
Qed.

(** Building the matrix adds up, cell by cell, the entries that name it. *)
Lemma fold_add_at nrows ncols (entries : list (Z * Z * Z)) m i' j' :
  shaped (Z.to_nat nrows) (Z.to_nat ncols) m ->
  forallb (entry_in_range nrows ncols) entries = true ->
  let m' := fold_left
              (fun m '(i, j, x) => add_at (Z.to_nat i) (Z.to_nat j) x m)
              entries m in
  shaped (Z.to_nat nrows) (Z.to_nat ncols) m'
  /\ cell_at m' i' j'
     = (cell_at m i' j'
        + sum_where (fun '(i, j, _) =>
                       ((i =? Z.of_nat i') && (j =? Z.of_nat j'))%Z)
                    snd entries)%Z.
Proof.
  revert m. induction entries as [|[[i j] x] l IH]; intros m Hm Hr; simpl.
  - split; [assumption|lia].
  - simpl in Hr. unfold in_range in Hr.
    apply andb_prop in Hr as [Hij Hr]. apply andb_prop in Hij as [Hi Hj].
    apply andb_prop in Hi as [Hi0 Hi1]. apply andb_prop in Hj as [Hj0 Hj1].
    apply Z.leb_le in Hi0, Hj0. apply Z.ltb_lt in Hi1, Hj1.
    destruct (IH (add_at (Z.to_nat i) (Z.to_nat j) x m)) as [Hs Hc];
      [now apply shaped_add_at|assumption|].
    split; [exact Hs|]. rewrite Hc.
    rewrite (cell_at_add_at (Z.to_nat nrows) (Z.to_nat ncols))
      by (assumption || lia).
    replace (Z.to_nat i =? i') with (i =? Z.of_nat i')%Z
      by (destruct (Z.eqb_spec i (Z.of_nat i'));
          destruct (Nat.eqb_spec (Z.to_nat i) i'); lia || reflexivity).
    replace (Z.to_nat j =? j') with (j =? Z.of_nat j')%Z
      by (destruct (Z.eqb_spec j (Z.of_nat j'));
          destruct (Nat.eqb_spec (Z.to_nat j) j'); lia || reflexivity).
    destruct ((i =? Z.of_nat i')%Z && (j =? Z.of_nat j')%Z); simpl; lia.
Qed.

End MatrixFacts.

(* ===================================================================== *)
(** * The vocabulary stage: [transform] *)
(* ===================================================================== *)

Section TransformFacts.
Import PyList PyDict Spec SciPy WordCounterToVector.

Lemma sum_where_app {A : Type} (f : A -> bool) (g : A -> Z) l1 l2 :
  sum_where f g (l1 ++ l2) = (sum_where f g l1 + sum_where f g l2)%Z.
Proof.
  induction l1 as [|a l1 IH]; simpl; [reflexivity|].
  rewrite IH. destruct (f a); lia.
Qed.

Lemma sum_where_map {A B : Type} (h : A -> B) (f : B -> bool) (g : B -> Z) l :
  sum_where f g (map h l)
  = sum_where (fun a => f (h a)) (fun a => g (h a)) l.
Proof.
  induction l as [|a l IH]; simpl; [reflexivity|]. now rewrite IH.
Qed.

Lemma sum_where_ext {A : Type} (f f' : A -> bool) (g g' : A -> Z) l :
  (forall a, In a l -> f a = f' a) ->
  (forall a, In a l -> g a = g' a) ->
  sum_where f g l = sum_where f' g' l.
Proof.
  induction l as [|a l IH]; simpl; intros Hf Hg; [reflexivity|].
  rewrite IH, Hf, Hg; auto.
Qed.

Lemma sum_where_none {A : Type} (f : A -> bool) (g : A -> Z) l :
  (forall a, In a l -> f a = false) -> sum_where f g l = 0%Z.
Proof.
  induction l as [|a l IH]; simpl; intros Hf; [reflexivity|].
  rewrite Hf, IH; auto.
Qed.

(** The inner loop, lines 261-264, once [fit] has run. *)
Lemma inner_loop self vocabulary row (word_count : Counter) rows cols data :
  vocabulary_ self = Some vocabulary ->
  for_each (append_entry row) word_count (rows, cols, data) self
  = (Ok (rows ++ map (fun _ => row) word_count,
         cols ++ map (fun '(word, _) => get_default vocabulary word 0%Z)
                     word_count,
         data ++ map snd word_count),
     self).
Proof.
  intros Hfit. revert rows cols data.
  induction word_count as [|[w n] l IH]; intros rows cols data; simpl.
  - unfold ret. now rewrite !app_nil_r.
  - unfold bind, get_vocabulary_, ret. rewrite Hfit.
    rewrite IH, <- !app_assoc. reflexivity.
Qed.

Lemma outer_loop self vocabulary start X rows cols data :
  vocabulary_ self = Some vocabulary ->
  for_each
    (fun lists '(row, word_count) =>
       for_each (append_entry row) word_count lists)
    (enumerate_from start X) (rows, cols, data) self
  = (Ok (rows ++ map row_of (entries_from vocabulary start X),
         cols ++ map col_of (entries_from vocabulary start X),
         data ++ map snd (entries_from vocabulary start X)),
     self).
Proof.
  intros Hfit. unfold entries_from. revert start rows cols data.
  induction X as [|wc X IH]; intros start rows cols data; simpl.
  - unfold ret. now rewrite !app_nil_r.
  - unfold bind at 1.
    rewrite (inner_loop self vocabulary) by assumption.
    rewrite IH, !map_app, !map_map, <- !app_assoc.
    do 3 f_equal; [f_equal|]; do 2 f_equal; apply map_ext; now intros [w n].
Qed.

Lemma triples_entries self vocabulary X :
  vocabulary_ self = Some vocabulary ->
  triples X self
  = (Ok (map row_of (entries_of vocabulary X),
         map col_of (entries_of vocabulary X),
         map snd (entries_of vocabulary X)),
     self).
Proof.
  intros Hfit. unfold triples, enumerate, entries_of.
  now rewrite (outer_loop self vocabulary).
Qed.

(** ** Methods that only read *)

Lemma read_only_ret {A : Type} (a : A) : read_only (ret a).
Proof. now intros self. Qed.

Lemma read_only_lift {A : Type} (r : result A) : read_only (lift r).
Proof. now intros self. Qed.

Lemma read_only_get_vocabulary_size : read_only get_vocabulary_size.
Proof. now intros self. Qed.

Lemma read_only_get_vocabulary_ : read_only get_vocabulary_.
Proof. now intros self. Qed.

Lemma read_only_bind {A B : Type} (m : method A) (k : A -> method B) :
  read_only m -> (forall a, read_only (k a)) -> read_only (bind m k).
Proof.
  unfold read_only, after, bind. intros Hm Hk self.
  specialize (Hm self). destruct (m self) as [[a|e] self']; simpl in *.
  - subst. apply Hk.
  - assumption.
Qed.

Lemma read_only_for_each {A B : Type} (body : A -> B -> method A) l a :
  (forall a b, read_only (body a b)) -> read_only (for_each body l a).
Proof.
  intros Hbody. revert a. induction l as [|b l IH]; intros a; simpl.
  - apply read_only_ret.
  - apply read_only_bind; auto.
Qed.

Lemma read_only_append_entry row lists item :
  read_only (append_entry row lists item).
Proof.
  destruct lists as [[rows cols] data], item as [word count]. simpl.
  apply read_only_bind; [apply read_only_get_vocabulary_|].
  intros vocabulary. apply read_only_ret.
Qed.

Lemma read_only_triples X : read_only (triples X).
Proof.
  apply read_only_for_each. intros lists [row word_count].
  apply read_only_for_each. intros. apply read_only_append_entry.
Qed.

Lemma read_only_transform X : read_only (transform X).
Proof.
  apply read_only_bind; [apply read_only_triples|].
  intros [[rows cols] data].
  apply read_only_bind; [apply read_only_get_vocabulary_size|].
  intros size. apply read_only_lift.
Qed.

Lemma combine_entries (l : list (Z * Z * Z)) :
  combine (combine (map row_of l) (map col_of l)) (map snd l) = l.
Proof.
  induction l as [|[[i j] x] l IH]; simpl; [reflexivity|]. now rewrite IH.
Qed.

Lemma In_enumerate_from {A : Type} start (l : list A) i x :
  In (i, x) (enumerate_from start l) ->
  (start <= i < start + Z.of_nat (length l))%Z.
Proof.
  intros H. apply In_nth_error in H as [n Hn].
  rewrite enumerate_from_nth in Hn.
  destruct (nth_error l n) eqn:E; simpl in Hn; [|discriminate].
  injection Hn as <- _.
  assert (n < length l) by (apply nth_error_Some; congruence). lia.
Qed.

Lemma entries_from_rows vocabulary start X e :
  In e (entries_from vocabulary start X) ->
  (start <= row_of e < start + Z.of_nat (length X))%Z
  /\ exists w, col_of e = column vocabulary w.
Proof.
  unfold entries_from. intros H.
  apply in_flat_map in H as ([row wc] & Hrow & He).
  apply in_map_iff in He as ([w n] & <- & _).
  split; [now apply In_enumerate_from in Hrow|].
  exists w. reflexivity.
Qed.

(** The entries of row [start + n] are those of the [n]-th message. *)
Lemma sum_entries_from vocabulary start X n j :
  sum_where (fun '(i, j', _) =>
               ((i =? start + Z.of_nat n) && (j' =? j))%Z)
            snd (entries_from vocabulary start X)
  = match nth_error X n with
    | Some word_count => column_total vocabulary word_count j
    | None => 0%Z
    end.
Proof.
  revert start n. induction X as [|wc X IH]; intros start n.
  - now destruct n.
  - unfold entries_from. simpl. rewrite sum_where_app, sum_where_map.
    fold (entries_from vocabulary (start + 1) X).
    destruct n as [|n]; simpl.
    + rewrite (sum_where_none _ _ (entries_from _ _ _)).
      * rewrite (Z.add_0_r (sum_where _ _ wc)). unfold column_total.
        apply sum_where_ext; intros [w c] _; [|reflexivity].
        rewrite Z.add_0_r, Z.eqb_refl. reflexivity.
      * intros [[i j'] x] He. apply entries_from_rows in He as [He _].
        unfold row_of in He. simpl in He.
        destruct (Z.eqb_spec i (start + 0)); [lia|reflexivity].
    + rewrite (sum_where_none _ _ wc).
      * replace (start + Z.pos (Pos.of_succ_nat n))%Z
          with (start + 1 + Z.of_nat n)%Z by lia.
        now rewrite IH.
      * intros [w c] _.
        destruct (Z.eqb_spec start (start + Z.pos (Pos.of_succ_nat n)));
          [lia|reflexivity].
Qed.

(** No token of a vocabulary indexed from 1 shares column 0 with the
    tokens the vocabulary lacks. *)
Lemma column_zero_unknown vocabulary word_count :
  (forall w, get vocabulary w <> Some 0%Z) ->
  column_total vocabulary word_count 0 = unknown_total vocabulary word_count.
Proof.
  intros H0. unfold column_total, unknown_total.
  apply sum_where_ext; [|reflexivity].
  intros [w n] _. unfold column. specialize (H0 w).
  destruct (get vocabulary w) as [i|]; [|reflexivity].
  destruct (Z.eqb_spec i 0); congruence.
Qed.

End TransformFacts.

Section TransformClaims.
Import PyList PyDict Spec Notions SciPy WordCounterToVector.

Lemma csr_matrix_entries nrows ncols (entries : list (Z * Z * Z)) :
  (0 <= nrows)%Z -> (0 <= ncols)%Z ->
  forallb (entry_in_range nrows ncols) entries = true ->
  csr_matrix (map snd entries) (map row_of entries) (map col_of entries)
             (nrows, ncols)
  = Ok (map (map (stored (map snd entries)))
          (fold_left
             (fun m '(i, j, x) => add_at (Z.to_nat i) (Z.to_nat j) x m)
             entries (zeros (Z.to_nat nrows) (Z.to_nat ncols)))).
Proof.
  intros Hr Hc He. unfold csr_matrix.
  rewrite combine_entries, !length_map, Nat.eqb_refl.
  apply Z.leb_le in Hr, Hc. rewrite Hr, Hc. simpl.
  assert (H : forallb (in_range nrows) (map row_of entries) = true
              /\ forallb (in_range ncols) (map col_of entries) = true).
  { clear Hr Hc. induction entries as [|[[i j] x] l IH]; simpl; [auto|].
    simpl in He. apply andb_prop in He as [Hij Hl].
    apply andb_prop in Hij as [Hi Hj].
    destruct (IH Hl) as [-> ->]. unfold row_of, col_of. simpl.
    now rewrite Hi, Hj. }
  destruct H as [-> ->]. reflexivity.
Qed.

Lemma entries_of_in_range vocabulary X size :
  (0 <= size)%Z ->
  (forall w i, get vocabulary w = Some i -> (1 <= i <= size)%Z) ->
  forallb (entry_in_range (Z.of_nat (length X)) (size + 1))
          (entries_of vocabulary X) = true.
Proof.
  intros Hsize Hidx. apply forallb_forall. intros [[i j] x] He.
  apply entries_from_rows in He as [Hrow [w Hcol]].
  unfold row_of, col_of in *. simpl in *. unfold in_range.
  assert (0 <= j <= size)%Z.
  { subst j. unfold column. specialize (Hidx w).
    destruct (get vocabulary w) as [k|]; [|lia].
    specialize (Hidx k eq_refl). lia. }
  apply andb_true_intro. split; apply andb_true_intro; split;
    (apply Z.leb_le || apply Z.ltb_lt); lia.
Qed.

(** ** The cells as the matrix stores them *)

Lemma stored_zero data : stored data 0 = 0%Z.
Proof. unfold stored. now destruct (forallb int64 data). Qed.

Lemma wrap64_int64 z : int64 z = true -> wrap64 z = z.
Proof.
  unfold int64, wrap64. intros H. apply andb_prop in H as [Hlo Hhi].
  apply Z.leb_le in Hlo. apply Z.ltb_lt in Hhi.
  rewrite Z.mod_small; lia.
Qed.

Lemma stored_int64 data z : int64 z = true -> stored data z = z.
Proof.
  intros H. unfold stored. destruct (forallb int64 data); [|reflexivity].
  now apply wrap64_int64.
Qed.

Lemma shaped_map (f : Z -> Z) nrows ncols m :
  shaped nrows ncols m -> shaped nrows ncols (map (map f) m).
Proof.
  unfold shaped. intros [Hl Hr]. split; [now rewrite length_map|].
  apply Forall_forall. intros row Hrow.
  apply in_map_iff in Hrow as (row0 & <- & Hrow0).
  rewrite Forall_forall in Hr. rewrite length_map. now apply Hr.
Qed.

Lemma cell_at_map (f : Z -> Z) m i j :
  f 0%Z = 0%Z -> cell_at (map (map f) m) i j = f (cell_at m i j).
Proof.
  intros Hf. unfold cell_at.
  change (@nil Z) with (map f []) at 1. rewrite map_nth.
  rewrite <- Hf at 1. apply map_nth.
Qed.

Lemma stored_zeros data nrows ncols :
  map (map (stored data)) (zeros nrows ncols) = zeros nrows ncols.
Proof. unfold zeros. now rewrite !map_repeat, stored_zero. Qed.

Lemma data_of_entries vocabulary start X :
  map snd (entries_from vocabulary start X) = all_counts X.
Proof.
  unfold entries_from, all_counts. revert start.
  induction X as [|wc X IH]; intros start; simpl; [reflexivity|].
  rewrite map_app, IH, map_map. f_equal.
  apply map_ext. now intros [w c].
Qed.

(** [transform] on an object that holds a vocabulary whose indices fit
    the size: the matrix, its shape and every one of its cells. *)
Lemma transform_cells self vocabulary X :
  vocabulary_ self = Some vocabulary ->
  (0 <= vocabulary_size self)%Z ->
  (forall w i,
     get vocabulary w = Some i -> (1 <= i <= vocabulary_size self)%Z) ->
  exists m,
    value (transform X) self = Ok m
    /\ shaped (length X) (Z.to_nat (vocabulary_size self + 1)) m
    /\ forall i j,
         cell_at m i j
         = stored (all_counts X)
             match nth_error X i with
             | Some word_count =>
                 column_total vocabulary word_count (Z.of_nat j)
             | None => 0%Z
             end.
Proof.
  intros Hvoc Hsize Hidx.
  set (v := vocabulary_size self) in *.
  pose proof (entries_of_in_range vocabulary X v Hsize Hidx) as Hrange.
  set (nrows := Z.of_nat (length X)) in *.
  set (exact := fold_left
                  (fun m '(i, j, x) =>
                     add_at (Z.to_nat i) (Z.to_nat j) x m)
                  (entries_of vocabulary X)
                  (zeros (Z.to_nat nrows) (Z.to_nat (v + 1)))).
  exists (map (map (stored (all_counts X))) exact). split; [|split].
  - unfold value, transform, bind.
    rewrite (triples_entries self vocabulary) by assumption. simpl.
    fold v. fold nrows.
    etransitivity; [apply csr_matrix_entries; (assumption || lia)|].
    unfold entries_of at 1. now rewrite data_of_entries.
  - apply shaped_map.
    destruct (fold_add_at nrows (v + 1) (entries_of vocabulary X)
                (zeros (Z.to_nat nrows) (Z.to_nat (v + 1))) 0 0
                (shaped_zeros _ _) Hrange) as [Hs _].
    fold exact in Hs. unfold nrows in Hs. now rewrite Nat2Z.id in Hs.
  - intros i j. rewrite cell_at_map by apply stored_zero. f_equal.
    destruct (fold_add_at nrows (v + 1) (entries_of vocabulary X)
                (zeros (Z.to_nat nrows) (Z.to_nat (v + 1))) i j
                (shaped_zeros _ _) Hrange) as [_ Hc].
    fold exact in Hc. rewrite Hc, cell_at_zeros. unfold entries_of.
    rewrite <- (Z.add_0_l (Z.of_nat i)).
    now rewrite (sum_entries_from vocabulary 0 X i (Z.of_nat j)).
Qed.

(** A cell total of counts that are not negative lies between 0 and the
    sum of the counts of the message. *)
Lemma column_total_bounds vocabulary (word_count : Counter) j :
  Forall (fun p => (0 <= snd p)%Z) word_count ->
  (0 <= column_total vocabulary word_count j <= total word_count)%Z.
Proof.
  unfold column_total, sum_where, total, sum_list.
  induction 1 as [|[w c] l Hc _ IH]; simpl in *; [lia|].
  destruct (column vocabulary w =? j)%Z; lia.
Qed.

Lemma column_total_int64 vocabulary (word_count : Counter) j :
  Forall (fun p => (0 <= snd p)%Z) word_count ->
  (total word_count < 2 ^ 63)%Z ->
  int64 (column_total vocabulary word_count j) = true.
Proof.
  intros Hpos Hlt.
  pose proof (column_total_bounds vocabulary word_count j Hpos) as [Hlo Hhi].
  unfold int64. apply andb_true_intro. split.
  - apply Z.leb_le. lia.
  - apply Z.ltb_lt. lia.
Qed.

(** When every cell total fits in 64 bits, the cells are the exact
    sums. *)
Lemma transform_exact self vocabulary X :
  vocabulary_ self = Some vocabulary ->
  (0 <= vocabulary_size self)%Z ->
  (forall w i,
     get vocabulary w = Some i -> (1 <= i <= vocabulary_size self)%Z) ->
  (forall word_count j,
     In word_count X ->
     int64 (column_total vocabulary word_count j) = true) ->
  exists m,
    value (transform X) self = Ok m
    /\ shaped (length X) (Z.to_nat (vocabulary_size self + 1)) m
    /\ forall i j,
         cell_at m i j
         = match nth_error X i with
           | Some word_count =>
               column_total vocabulary word_count (Z.of_nat j)
           | None => 0%Z
           end.
Proof.
  intros Hvoc Hsize Hidx Hsum.
  destruct (transform_cells self vocabulary X Hvoc Hsize Hidx)
    as (m & Hm & Hshape & Hcell).
  exists m. split; [exact Hm|]. split; [exact Hshape|].
  intros i j. rewrite Hcell.
  destruct (nth_error X i) as [wc|] eqn:E; [|apply stored_zero].
  apply stored_int64, Hsum. eapply nth_error_In, E.
Qed.

(** C3, as the code has it. On an object fitted with a vocabulary size
    that is not negative, and for a batch whose counts and whose cell
    totals (the sum of the counts of one message that go to one column)
    fit in 64 bits, [transform] does not raise and gives one row per
    message, row [i] for message [i], of [vocabulary_size + 1] cells;
    cell [j] holds the counts, not capped, of the tokens of the message
    whose column is [j] (the index of a token of the vocabulary, 0 for
    any other token), so that cell 0 holds the sum of the counts of the
    tokens the vocabulary lacks. (A count that does not fit in 64 bits
    makes numpy leave the 64-bit integers, see [stored]; the first
    condition keeps the batch away from that.) *)
Theorem transform_counts
  (self0 : WordCounterToVectorTransformer) (X_train X : list Counter) :
  (0 <= vocabulary_size self0)%Z ->
  let self := after (fit X_train) self0 in
  exists vocabulary,
    vocabulary_ self = Some vocabulary
    /\ ((forall word_count w c,
           In word_count X -> In (w, c) word_count -> int64 c = true) ->
        (forall word_count j,
           In word_count X ->
           int64 (column_total vocabulary word_count j) = true) ->
        exists m,
          value (transform X) self = Ok m
          /\ length m = length X
          /\ forall i word_count,
               nth_error X i = Some word_count ->
               exists row,
                 nth_error m i = Some row
                 /\ Z.of_nat (length row) = (vocabulary_size self + 1)%Z
                 /\ (forall j, j < length row ->
                       nth j row 0%Z
                       = column_total vocabulary word_count (Z.of_nat j))
                 /\ nth 0 row 0%Z = unknown_total vocabulary word_count).
Proof.
  intros Hsize self.
  set (vocabulary := vocabulary_of X_train (vocabulary_size self0)).
  exists vocabulary. split; [reflexivity|]. intros _ Hsum.
  assert (Hidx : forall w i,
             get vocabulary w = Some i ->
             (1 <= i <= vocabulary_size self)%Z).
  { intros w i Hg. now apply vocabulary_of_index in Hg. }
  destruct (transform_exact self vocabulary X eq_refl Hsize Hidx Hsum)
    as (m & Hm & [Hlen Hrows] & Hcell).
  exists m. split; [exact Hm|]. split; [exact Hlen|].
  intros i word_count Hi.
  assert (Hlt : i < length m).
  { rewrite Hlen. apply nth_error_Some. congruence. }
  exists (nth i m []).
  assert (Hrow : length (nth i m [])
                 = Z.to_nat (vocabulary_size self + 1)).
  { rewrite Forall_forall in Hrows. now apply Hrows, nth_In. }
  assert (Hnth : forall j,
             nth j (nth i m []) 0%Z
             = column_total vocabulary word_count (Z.of_nat j)).
  { intros j. specialize (Hcell i j). rewrite Hi in Hcell. exact Hcell. }
  split; [now apply nth_error_nth'|].
  split; [rewrite Hrow; simpl in *; lia|].
  split; [intros j _; apply Hnth|].
  rewrite (Hnth 0). apply column_zero_unknown.
  intros w Hw. apply Hidx in Hw. lia.
Qed.

Lemma transform_counts_witness :
  exists m,
    value (transform
             [ [("free", 50%Z); ("viagra", 3%Z); ("cash", 4%Z);
                ("now", 1%Z)]; [] ])
          sample_fitted
    = Ok m
    /\ length m = 2
    /\ m = [[7%Z; 1%Z; 50%Z]; [0%Z; 0%Z; 0%Z]].
Proof.
  destruct (transform_counts (init 2) sample_batch
              [ [("free", 50%Z); ("viagra", 3%Z); ("cash", 4%Z);
                 ("now", 1%Z)]; [] ]
              ltac:(simpl; lia))
    as (vocabulary & Hvoc & Hrun).
  injection Hvoc as <-.
  destruct Hrun as (m & Hm & Hlen & _).
  - intros wc w c [<-|[<-|[]]] Hin; [|destruct Hin].
    simpl in Hin.
    destruct Hin as [[= <- <-]|[[= <- <-]|[[= <- <-]|[[= <- <-]|[]]]]];
      reflexivity.
  - intros wc j [<-|[<-|[]]]; apply column_total_int64;
      repeat constructor; simpl; lia.
  - exists m. split; [exact Hm|]. split; [exact Hlen|].
    injection Hm as <-. reflexivity.
Defined.

(** C3 as it is stated fails in two ways. With a vocabulary size of -1
    the object is fitted and [transform] raises. And a count does not
    always reach its cell as it is: two unknown tokens counted 2^62 times
    each leave -2^63 in cell 0, not the sum 2^63 of their counts. *)
Lemma transform_counts_counterexample :
  (vocabulary_ (after (fit sample_batch) (init (-1)))
   = Some [("now", 1%Z); ("free", 2%Z); ("friend", 3%Z)]
   /\ value (transform [[("unseen", 1%Z)]])
             (after (fit sample_batch) (init (-1)))
      = Raise ValueError)
  /\ (vocabulary_ sample_fitted = Some [("now", 1%Z); ("free", 2%Z)]
      /\ value (transform [[("unseen", 2 ^ 62); ("other", 2 ^ 62)]%Z])
               sample_fitted
         = Ok [[- 2 ^ 63; 0; 0]%Z]
      /\ unknown_total [("now", 1%Z); ("free", 2%Z)]
           [("unseen", 2 ^ 62); ("other", 2 ^ 62)]%Z
         = (2 ^ 63)%Z).
Proof. repeat split; vm_compute; reflexivity. Qed.

(** C5. [transform] leaves the object, and so its vocabulary, exactly as
    [fit] left it: after one call, and after any sequence of calls on any
    batches, with or without tokens the vocabulary lacks. *)
Theorem transform_keeps_vocabulary
  (self0 : WordCounterToVectorTransformer) (X_train : list Counter) :
  (forall self X, after (transform X) self = self)
  /\ forall batches : list (list Counter),
       vocabulary_ (fold_left (fun self X => after (transform X) self)
                              batches (after (fit X_train) self0))
       = vocabulary_ (after (fit X_train) self0).
Proof.
  split; [intros self X; apply read_only_transform|].
  intros batches. generalize (after (fit X_train) self0).
  induction batches as [|X batches IH]; intros self; simpl; [reflexivity|].
  now rewrite IH, read_only_transform.
Qed.

End TransformClaims.

(* ===================================================================== *)
(** * [html_to_plain_text] on the sample of the specification *)
(* ===================================================================== *)

Section HtmlClaims.
Import PyStr Html.

(** C7. On the sample, [html_to_plain_text] gives
    [" HYPERLINK link Hello & welcome"]: it has the marker [" HYPERLINK "]
    and the text ["Hello & welcome"] and no ["x"]. The order of the steps
    decides it: were every tag stripped first, the anchor would leave no
    marker and the title would stay. *)
Theorem html_to_plain_text_sample (T : CharRefs) :
  html5 T "amp;" = Some "&" ->
  let text := html_to_plain_text T sample_html in
  text = " HYPERLINK link Hello & welcome"
  /\ contains " HYPERLINK " text = true
  /\ contains "Hello & welcome" text = true
  /\ contains "x" text = false
  /\ contains " HYPERLINK "
       (sub anchor_open " HYPERLINK " (sub any_tag "" sample_html)) = false
  /\ contains "x" (sub head_region "" (sub any_tag "" sample_html)) = true.
Proof.
  intros Hamp text.
  assert (Htext : text = " HYPERLINK link Hello & welcome").
  { unfold text, html_to_plain_text.
    replace (sub blank_lines _ _) with " HYPERLINK link Hello &amp; welcome"
      by (vm_compute; reflexivity).
    destruct T as [named numeric]. simpl in Hamp.
    unfold unescape. cbv. rewrite Hamp. reflexivity. }
  rewrite Htext. repeat split; vm_compute; reflexivity.
Qed.

Lemma html_to_plain_text_sample_witness :
  html_to_plain_text basic_refs sample_html
  = " HYPERLINK link Hello & welcome".
Proof.
  apply (html_to_plain_text_sample basic_refs). reflexivity.
Defined.

End HtmlClaims.

(* ===================================================================== *)
(** * [email_to_text] *)
(* ===================================================================== *)

Section EmailFacts.
Import Spec Email.
Variable T : Html.CharRefs.

(** Parts of another content type change nothing. *)
Lemma loop_skips html parts :
  email_to_text_loop T html parts
  = email_to_text_loop T html
      (filter (fun part => is_plain part || is_html part) parts).
Proof.
  revert html. induction parts as [|part rest IH]; intros html.
  - reflexivity.
  - simpl. unfold is_plain, is_html.
    destruct (String.eqb (get_content_type part) "text/plain") eqn:Ep;
      simpl.
    + rewrite Ep. reflexivity.
    + destruct (String.eqb (get_content_type part) "text/html") eqn:Eh;
        simpl.
      * rewrite Ep, Eh. simpl. apply IH.
      * apply IH.
Qed.

(** The first plain part ends the loop. *)
Lemma loop_first_plain html before_it part after_it :
  forallb (fun q => negb (is_plain q)) before_it = true ->
  is_plain part = true ->
  email_to_text_loop T html (before_it ++ part :: after_it)
  = Some (part_content part).
Proof.
  unfold is_plain. intros Hpre Hp. revert html.
  induction before_it as [|q rest IH]; intros html; simpl.
  - now rewrite Hp.
  - simpl in Hpre. apply andb_prop in Hpre as [Hq Hrest].
    apply negb_true_iff in Hq. rewrite Hq. simpl.
    destruct (String.eqb (get_content_type q) "text/html"); simpl; auto.
Qed.

(** Without a plain part the loop ends with the content of the last HTML
    part in [html], or with [html] as it was. *)
Lemma loop_no_plain html parts :
  forallb (fun q => negb (is_plain q)) parts = true ->
  email_to_text_loop T html parts
  = after_loop T match last_html parts with
                 | Some h => Some (part_content h)
                 | None => html
                 end.
Proof.
  unfold is_plain. revert html.
  induction parts as [|q rest IH]; intros html Hall; [reflexivity|].
  simpl in Hall. apply andb_prop in Hall as [Hq Hrest].
  apply negb_true_iff in Hq. simpl. rewrite Hq. simpl.
  unfold is_html.
  destruct (String.eqb (get_content_type q) "text/html"); simpl;
    rewrite IH by assumption; now destruct (last_html rest).
Qed.

End EmailFacts.

Section EmailClaims.
Import Spec Email.

(** C4, as the code has it. [email_to_text] passes over the parts that are
    neither ["text/plain"] nor ["text/html"]; the first ["text/plain"]
    part in document order ends the traversal and its content is the
    result, whatever follows; and when there is no plain part, the last
    ["text/html"] part decides: if its content is not the empty string,
    the result is [html_to_plain_text] of that content. *)
Theorem email_to_text_selects (T : Html.CharRefs) (email : Message) :
  email_to_text T email
  = email_to_text_loop T None
      (filter (fun part => is_plain part || is_html part) (walk email))
  /\ (forall before_it part after_it,
        walk email = before_it ++ part :: after_it ->
        forallb (fun q => negb (is_plain q)) before_it = true ->
        is_plain part = true ->
        email_to_text T email = Some (part_content part))
  /\ (forall h,
        forallb (fun q => negb (is_plain q)) (walk email) = true ->
        last_html (walk email) = Some h ->
        part_content h <> "" ->
        email_to_text T email
        = Some (Html.html_to_plain_text T (part_content h))).
Proof.
  unfold email_to_text. split; [apply loop_skips|split].
  - intros before_it part after_it -> Hpre Hp. now apply loop_first_plain.
  - intros h Hall Hlast Hne. rewrite loop_no_plain, Hlast by assumption.
    simpl. destruct (String.eqb_spec (part_content h) ""); congruence.
Qed.

Lemma email_to_text_selects_witness :
  email_to_text Html.basic_refs html_message
  = Some " HYPERLINK link Hello & welcome"
  /\ email_to_text Html.basic_refs mixed_message = Some "Free money now".
Proof.
  destruct (email_to_text_selects Html.basic_refs html_message)
    as (_ & _ & Hhtml).
  destruct (email_to_text_selects Html.basic_refs mixed_message)
    as (_ & Hplain & _).
  split.
  - rewrite (Hhtml html_part); [reflexivity|reflexivity|reflexivity|].
    discriminate.
  - apply (Hplain [container; html_part] plain_part
                  [text_part "text/html" "<b>x</b>"]); reflexivity.
Defined.

(** C4 as it is stated fails on an HTML message with an empty body: no
    plain part, an HTML part met, and yet the result is not
    [html_to_plain_text] of its content (the empty string): it is
    [None]. *)
Lemma email_to_text_empty_html_counterexample :
  forallb (fun q => negb (is_plain q)) (walk empty_html_message) = true
  /\ last_html (walk empty_html_message) = Some empty_html_part
  /\ Html.html_to_plain_text Html.basic_refs (part_content empty_html_part)
     = ""
  /\ email_to_text Html.basic_refs empty_html_message = None
  /\ email_to_text Html.basic_refs empty_html_message
     <> Some (Html.html_to_plain_text Html.basic_refs
                (part_content empty_html_part)).
Proof.
  repeat split; try reflexivity. discriminate.
Qed.

(** C10. When a message has no ["text/plain"] part and the content of its
    last ["text/html"] part is the empty string, [email_to_text] returns
    [None], not the conversion of the empty string. *)
Theorem email_to_text_empty_html (T : Html.CharRefs) (email : Message)
  (h : Part) :
  forallb (fun q => negb (is_plain q)) (walk email) = true ->
  last_html (walk email) = Some h ->
  part_content h = "" ->
  email_to_text T email = None
  /\ email_to_text T email
     <> Some (Html.html_to_plain_text T (part_content h)).
Proof.
  intros Hall Hlast Hempty. unfold email_to_text.
  rewrite loop_no_plain, Hlast, Hempty by assumption.
  split; [reflexivity|discriminate].
Qed.

Lemma email_to_text_empty_html_witness :
  email_to_text Html.basic_refs trailing_empty_html_message = None.
Proof.
  apply (email_to_text_empty_html Html.basic_refs
           trailing_empty_html_message empty_html_part);
    reflexivity.
Defined.

End EmailClaims.

(* ===================================================================== *)
(** * The word-counter stage *)
(* ===================================================================== *)

Section TokenizerClaims.
Import PyDict Email EmailToWordCounter.
Variable url_extractor : option (string -> list string).
Variable stemmer : option (string -> string).
Variable list_set : list string -> list string.
Variable T : Html.CharRefs.

Abbreviation word_counts_of :=
  (word_counts_of url_extractor stemmer list_set T).
Abbreviation transform := (transform url_extractor stemmer list_set T).

Lemma transform_loop self X (done : list Counter) :
  fold_left (fun X_transformed email =>
               X_transformed ++ [word_counts_of self email])
            X done
  = done ++ map (word_counts_of self) X.
Proof.
  revert done. induction X as [|email X IH]; intros done; simpl.
  - now rewrite app_nil_r.
  - rewrite IH, <- app_assoc. reflexivity.
Qed.

Lemma transform_map self X : transform self X = map (word_counts_of self) X.
Proof. apply transform_loop. Qed.

(** C6. [transform] gives one counter per message, the [i]-th counter
    computed from the [i]-th message alone; [fit] returns the object
    unchanged; and a message for which [email_to_text] returns [None] is
    read as the empty string and gives the empty counter (the extractor
    finds no URL in the empty text, and the list of the empty set is
    empty). *)
Theorem transform_one_counter_per_message
  (self : EmailToWordCounterTransformer) (X : list Message) :
  length (transform self X) = length X
  /\ (forall i,
        nth_error (transform self X) i
        = option_map (word_counts_of self) (nth_error X i))
  /\ fit self X = self
  /\ (forall email,
        email_to_text T email = None ->
        (forall find_urls,
           url_extractor = Some find_urls -> find_urls "" = []) ->
        list_set [] = [] ->
        word_counts_of self email = []).
Proof.
  rewrite transform_map. split; [apply length_map|].
  split; [intros i; apply nth_error_map|].
  split; [reflexivity|].
  intros email Hnone Hurls Hset.
  unfold EmailToWordCounter.word_counts_of. rewrite Hnone.
  assert (Htext :
            match url_extractor with
            | Some find_urls =>
                if replace_urls self then
                  fold_left (fun text url => PyStr.replace url " URL " text)
                    (PyList.sorted_reverse
                       (fun url => Z.of_nat (String.length url))
                       (list_set
                          (find_urls
                             (if lower_case self then PyStr.lower ""
                              else ""))))
                    (if lower_case self then PyStr.lower "" else "")
                else if lower_case self then PyStr.lower "" else ""
            | None => if lower_case self then PyStr.lower "" else ""
            end = "").
  { replace (if lower_case self then PyStr.lower "" else "") with ""
      by now destruct (lower_case self).
    destruct url_extractor as [find_urls|]; [|reflexivity].
    rewrite (Hurls find_urls eq_refl), Hset.
    now destruct (replace_urls self). }
  rewrite Htext.
  destruct stemmer, (replace_numbers self), (remove_punctuation self),
    (stemming self); reflexivity.
Qed.

(** C9. The flag [strip_headers] is never read: two objects that agree on
    the other five flags give the same counters on every batch. *)
Theorem strip_headers_ignored
  (self1 self2 : EmailToWordCounterTransformer) (X : list Message) :
  lower_case self1 = lower_case self2 ->
  remove_punctuation self1 = remove_punctuation self2 ->
  replace_urls self1 = replace_urls self2 ->
  replace_numbers self1 = replace_numbers self2 ->
  stemming self1 = stemming self2 ->
  transform self1 X = transform self2 X.
Proof.
  intros Hl Hp Hu Hn Hs. rewrite !transform_map. apply map_ext.
  intros email. unfold EmailToWordCounter.word_counts_of.
  now rewrite Hl, Hp, Hu, Hn, Hs.
Qed.

End TokenizerClaims.

Section TokenizerWitnesses.
Import PyDict Email EmailToWordCounter.

Lemma transform_one_counter_per_message_witness :
  word_counts_of (Some sample_find_urls) (Some sample_stem) sample_list_set
    Html.basic_refs all_enabled image_message
  = [].
Proof.
  destruct (transform_one_counter_per_message
              (Some sample_find_urls) (Some sample_stem) sample_list_set
              Html.basic_refs all_enabled [image_message])
    as (_ & _ & _ & Hempty).
  apply Hempty; [reflexivity| |reflexivity].
  intros find_urls [= <-]. reflexivity.
Defined.

Lemma strip_headers_ignored_witness :
  transform (Some sample_find_urls) (Some sample_stem) sample_list_set
    Html.basic_refs all_enabled [mixed_message; html_message]
  = transform (Some sample_find_urls) (Some sample_stem) sample_list_set
      Html.basic_refs headers_kept [mixed_message; html_message].
Proof.
  apply strip_headers_ignored; reflexivity.
Defined.

End TokenizerWitnesses.

(* ===================================================================== *)
(** * Worked examples *)
(* ===================================================================== *)

Section Examples.
Import PyList PyDict Email EmailToWordCounter WordCounterToVector.

(** The pattern of line 219 on the sample of the specification. *)
Example number_replacement :
  PyStr.sub number "NUMBER" "Order 3.14 units or 42 total"
  = "Order NUMBER units or NUMBER total".
Proof. reflexivity. Qed.

(** Equal counts keep the order of the counter. *)
Example most_common_ties :
  most_common [("a", 1); ("b", 2); ("c", 1); ("d", 2); ("e", 3)]%Z
  = [("e", 3); ("b", 2); ("d", 2); ("a", 1); ("c", 1)]%Z.
Proof. reflexivity. Qed.

(** With room for one token, the one stuffed 50 times into one message
    (capped total 10) loses to the one three messages share (total 11). *)
Example capped_token_loses :
  total_count sample_batch
  = [("free", 10); ("now", 11); ("hello", 1); ("friend", 7)]%Z
  /\ vocabulary_ (after (fit sample_batch) (init 1)) = Some [("now", 1%Z)].
Proof. split; reflexivity. Qed.

(** A negative [vocabulary_size] is outside of what the theorems on the
    vocabulary cover: the slice of line 250 then drops tokens from the
    end, and [csr_matrix] refuses the shape. *)
Example negative_vocabulary_size :
  vocabulary_ (after (fit sample_batch) (init (-1)))
  = Some [("now", 1); ("free", 2); ("friend", 3)]%Z
  /\ value (transform sample_batch) (after (fit sample_batch) (init (-1)))
     = Raise ValueError.
Proof. split; reflexivity. Qed.

(** [transform] before [fit]: the attribute is missing, which shows at the
    first token. *)
Example transform_unfitted :
  value (transform sample_batch) (init 2) = Raise AttributeError
  /\ value (transform [[]]) (init 2) = Ok [[0; 0; 0]]%Z.
Proof. split; reflexivity. Qed.

(** The word-counter stage on three messages, with the stand-ins for the
    extractor and the stemmer. *)
Example word_counts_of_samples :
  EmailToWordCounter.transform (Some sample_find_urls) (Some sample_stem)
    sample_list_set Html.basic_refs all_enabled
    [ mixed_message;
      Leaf (text_part "text/plain"
              "Visit example.com: 3 offers, 2.5e3 dollars & more offers");
      empty_html_message ]
  = [ [("free", 1); ("money", 1); ("now", 1)];
      [("visit", 1); ("URL", 1); ("NUMBER", 2); ("offer", 2);
       ("dollar", 1); ("more", 1)];
      [] ]%Z.
Proof. vm_compute. reflexivity. Qed.

End Examples.

(* ===================================================================== *)
(** * Further properties: the steps on the text *)
(* ===================================================================== *)

Section TextFacts.
Import PyStr Notions EmailToWordCounter.

Lemma every_app f s1 s2 :
  every f (s1 ++ s2)%string = every f s1 && every f s2.
Proof.
  induction s1 as [|c s1 IH]; simpl; [reflexivity|].
  now rewrite IH, andb_assoc.
Qed.

Lemma every_impl (f g : ascii -> bool) s :
  (forall c, f c = true -> g c = true) -> every f s = true ->
  every g s = true.
Proof.
  intros H. induction s as [|c s IH]; simpl; [reflexivity|].
  intros E. apply andb_prop in E as [Hc Hs]. now rewrite (H c Hc), IH.
Qed.

Lemma every_drop f k s : every f s = true -> every f (drop k s) = true.
Proof.
  revert s. induction k as [|k IH]; intros [|c s]; simpl; auto.
  intros E. apply andb_prop in E as [_ Hs]. now apply IH.
Qed.

(** Where a rule matches nowhere, [re.sub] changes nothing. *)
Lemma sub_from_unmatched (r : rule) s :
  (forall k, r (drop k s) = None) -> sub_from r 0 s = s.
Proof.
  induction s as [|c s IH]; intros H; simpl; [reflexivity|].
  pose proof (H 0) as H0. simpl in H0. rewrite H0.
  f_equal. apply IH. intros k. apply (H (S k)).
Qed.

Lemma number_digit c s :
  isdigit c = true -> exists n, number (String c s) = Some (S n).
Proof.
  intros Hc. unfold number. simpl. rewrite Hc. cbv zeta.
  eexists. rewrite <- Nat.add_assoc. reflexivity.
Qed.

Lemma number_not_digit c s : isdigit c = false -> number (String c s) = None.
Proof. intros Hc. unfold number. simpl. now rewrite Hc. Qed.

Lemma number_replacement_from skip s :
  every (fun c => negb (isdigit c))
        (sub_from (const_rule number "NUMBER") skip s) = true.
Proof.
  revert skip. induction s as [|c s IH]; intros skip; [reflexivity|].
  simpl. destruct skip as [|skip]; [|apply IH].
  unfold const_rule. destruct (isdigit c) eqn:Hc.
  - destruct (number_digit c s Hc) as [n ->].
    change (every (fun c => negb (isdigit c))
              ("NUMBER" ++ sub_from (const_rule number "NUMBER") n s)%string
            = true).
    rewrite every_app, IH. reflexivity.
  - rewrite (number_not_digit c s Hc). simpl. now rewrite Hc, IH.
Qed.

(** X1. After the replacement of line 219 the text has no digit left:
    every character that stays is not a digit, and ["NUMBER"] has
    none. *)
Theorem number_replacement_leaves_no_digit (text : string) :
  every (fun c => negb (isdigit c)) (sub number "NUMBER" text) = true.
Proof. apply number_replacement_from. Qed.

Lemma non_word_word c s : isword c = true -> non_word (String c s) = None.
Proof. intros Hc. unfold non_word. simpl. now rewrite Hc. Qed.

Lemma non_word_run c s :
  isword c = false ->
  non_word (String c s) = Some (S (span non_word_char s)).
Proof.
  intros Hc. unfold non_word. simpl. rewrite Hc. reflexivity.
Qed.

Lemma word_not_space c : isword c = true -> is_char " " c = false.
Proof.
  destruct (is_char " " c) eqn:E; [|reflexivity].
  apply Ascii.eqb_eq in E. subst. discriminate.
Qed.

(** The invariant of the scan: [skip] is either 0 or the whole run of
    non-word characters at the head of [s]. *)
Lemma punctuation_removal_from skip s :
  skip = 0 \/ skip = span non_word_char s ->
  let out := sub_from (const_rule non_word " ") skip s in
  every (fun c => isword c || is_char " " c) out = true
  /\ single_spaced out = true
  /\ (skip = span non_word_char s -> starts_with_space out = false).
Proof.
  revert skip. induction s as [|c s IH]; intros skip Hskip out.
  - repeat split.
  - subst out. cbn [sub_from]. destruct skip as [|skip].
    + destruct (isword c) eqn:Hc.
      * assert (Hr : const_rule non_word " " (String c s) = None)
          by (unfold const_rule; now rewrite non_word_word).
        rewrite Hr.
        destruct (IH 0 (or_introl eq_refl)) as (He & Hs & _).
        cbn [every single_spaced starts_with_space].
        rewrite Hc, He, Hs, (word_not_space c Hc). repeat split.
      * assert (Hr : const_rule non_word " " (String c s)
                     = Some (S (span non_word_char s), " "))
          by (unfold const_rule; now rewrite non_word_run).
        rewrite Hr.
        destruct (IH (span non_word_char s) (or_intror eq_refl))
          as (He & Hs & Hstart).
        change (" " ++ ?x)%string with (String " " x).
        cbn [every single_spaced starts_with_space].
        rewrite He, Hs, (Hstart eq_refl). repeat split.
        intros E. cbn [span] in E. unfold non_word_char in E at 1.
        rewrite Hc in E. discriminate.
    + destruct Hskip as [E|E]; [discriminate|].
      cbn [span] in E. unfold non_word_char in E at 1.
      destruct (isword c); simpl in E; [discriminate|].
      injection E as E.
      destruct (IH skip (or_intror E)) as (He & Hs & Hstart).
      repeat split; auto.
Qed.

(** X2. After the replacement of line 221 the text is made of word
    characters and single spaces: no other character stays, and no two
    spaces stand side by side. *)
Theorem punctuation_removal_single_spaced (text : string) :
  every (fun c => isword c || is_char " " c) (sub non_word " " text) = true
  /\ single_spaced (sub non_word " " text) = true.
Proof.
  destruct (punctuation_removal_from 0 text (or_introl eq_refl))
    as (He & Hs & _).
  split; assumption.
Qed.

Lemma string_app_assoc (s1 s2 s3 : string) :
  ((s1 ++ s2) ++ s3 = s1 ++ (s2 ++ s3))%string.
Proof.
  induction s1 as [|c s1 IH]; simpl; [reflexivity|]. now rewrite IH.
Qed.

Lemma rev_string_app acc s :
  rev_string acc s = (rev_string "" s ++ acc)%string.
Proof.
  revert acc. induction s as [|c s IH]; intros acc; simpl; [reflexivity|].
  rewrite IH, (IH (String c "")).
  rewrite string_app_assoc. reflexivity.
Qed.

Lemma rev_string_every f acc s :
  every f (rev_string acc s) = every f s && every f acc.
Proof.
  revert acc. induction s as [|c s IH]; intros acc; simpl; [reflexivity|].
  rewrite IH. simpl. now destruct (f c), (every f s), (every f acc).
Qed.

Lemma rev_string_not_empty acc c s : rev_string acc (String c s) <> "".
Proof.
  simpl. rewrite rev_string_app. destruct (rev_string "" s); discriminate.
Qed.

Lemma flush_tokens cur rest :
  every (fun c => negb (isspace c)) cur = true ->
  Forall token rest -> Forall token (flush cur rest).
Proof.
  intros Hcur Hrest. destruct cur as [|c cur]; [exact Hrest|].
  unfold flush. constructor; [|exact Hrest]. split.
  - apply rev_string_not_empty.
  - now rewrite rev_string_every, Hcur.
Qed.

Lemma split_from_tokens cur s :
  every (fun c => negb (isspace c)) cur = true ->
  Forall token (split_from cur s).
Proof.
  revert cur. induction s as [|c s IH]; intros cur Hcur; simpl.
  - now apply flush_tokens.
  - destruct (isspace c) eqn:Hc.
    + apply flush_tokens; [assumption|]. now apply IH.
    + apply IH. simpl. now rewrite Hc, Hcur.
Qed.

Lemma concat_flush cur rest :
  concat_strings (flush cur rest)
  = (rev_string "" cur ++ concat_strings rest)%string.
Proof. now destruct cur. Qed.

Lemma concat_split_from cur s :
  concat_strings (split_from cur s)
  = (rev_string "" cur ++ keep (fun c => negb (isspace c)) s)%string.
Proof.
  revert cur. induction s as [|c s IH]; intros cur; simpl.
  - now rewrite concat_flush.
  - destruct (isspace c); simpl.
    + now rewrite concat_flush, IH.
    + rewrite IH. simpl. rewrite (rev_string_app (String c "")).
      rewrite string_app_assoc. reflexivity.
Qed.

(** X3. [text.split()] cuts the text at its white space and loses nothing
    else: no token is empty, no token has a white-space character, and
    the tokens put end to end are the text without its white space. *)
Theorem split_tokens (text : string) :
  Forall (fun w => w <> "" /\ every (fun c => negb (isspace c)) w = true)
         (split text)
  /\ concat_strings (split text) = keep (fun c => negb (isspace c)) text.
Proof.
  split.
  - apply (split_from_tokens "" text). reflexivity.
  - apply (concat_split_from "" text).
Qed.

Lemma lower_char_idem c : lower_char (lower_char c) = lower_char c.
Proof. destruct c as [[] [] [] [] [] [] [] []]; reflexivity. Qed.

Lemma isspace_lower_char c : isspace (lower_char c) = isspace c.
Proof. destruct c as [[] [] [] [] [] [] [] []]; reflexivity. Qed.

Lemma lower_rev_string acc s :
  lower (rev_string acc s) = rev_string (lower acc) (lower s).
Proof.
  revert acc. induction s as [|c s IH]; intros acc; simpl; [reflexivity|].
  now rewrite IH.
Qed.

Lemma lower_flush cur rest :
  flush (lower cur) (map lower rest) = map lower (flush cur rest).
Proof.
  destruct cur as [|c cur]; [reflexivity|].
  unfold flush. cbn [lower]. rewrite map_cons.
  f_equal. symmetry. apply (lower_rev_string "" (String c cur)).
Qed.

Lemma lower_split_from cur s :
  split_from (lower cur) (lower s) = map lower (split_from cur s).
Proof.
  revert cur. induction s as [|c s IH]; intros cur; cbn [lower split_from].
  - apply (lower_flush cur []).
  - rewrite isspace_lower_char. destruct (isspace c).
    + rewrite <- lower_flush. f_equal. apply (IH "").
    + apply (IH (String c cur)).
Qed.

(** X4. Lower-casing (line 212) is a normal form and does not move the
    word boundaries: lower-casing twice is lower-casing once, and the
    tokens of the lower-cased text are the lower-cased tokens of the
    text. *)
Theorem lower_normalises (text : string) :
  lower (lower text) = lower text
  /\ split (lower text) = map lower (split text).
Proof.
  split.
  - induction text as [|c s IH]; simpl; [reflexivity|].
    now rewrite IH, lower_char_idem.
  - apply (lower_split_from "" text).
Qed.

Lemma find_none ci p s :
  find ci p s = None -> forall k, starts_with ci p (drop k s) = false.
Proof.
  induction s as [|c s IH]; intros H k.
  - simpl in H. destruct (starts_with ci p ""%string) eqn:E;
      [discriminate|]. now destruct k.
  - cbn [find] in H.
    destruct (starts_with ci p (String c s)) eqn:E; [discriminate|].
    destruct k as [|k]; [exact E|]. simpl. apply IH.
    now destruct (find ci p s).
Qed.

(** X5. [text.replace(old, new)] (line 217) leaves alone a text that does
    not have [old]. *)
Theorem replace_absent (old new text : string) :
  old <> "" ->
  contains old text = false ->
  replace old new text = text.
Proof.
  intros Hold Habs. destruct old as [|c old]; [congruence|].
  unfold replace, sub. apply sub_from_unmatched. intros k.
  unfold const_rule, literal, contains in *.
  destruct (find false (String c old) text) eqn:E; [discriminate|].
  now rewrite (find_none _ _ _ E k).
Qed.

Lemma replace_absent_witness :
  replace "example.org" " URL " "see example.com" = "see example.com".
Proof. apply replace_absent; [discriminate|reflexivity]. Defined.

End TextFacts.

(* ===================================================================== *)
(** * Further properties: counting the words *)
(* ===================================================================== *)

Section CountingFacts.
Import PyList PyDict Spec Notions EmailToWordCounter.

Lemma total_add (c : Counter) k n : total (add c k n) = (total c + n)%Z.
Proof.
  unfold add, total, sum_list, count, get_default.
  induction c as [|[k' v'] c IH]; simpl; [lia|].
  destruct (String.eqb k' k); simpl; [lia|]. rewrite IH. lia.
Qed.

Lemma occurrences_cons x words w :
  occurrences w (x :: words)
  = ((if String.eqb x w then 1 else 0) + occurrences w words)%Z.
Proof.
  unfold occurrences. simpl.
  destruct (string_dec x w) as [->|Hne].
  - rewrite String.eqb_refl. lia.
  - apply String.eqb_neq in Hne. rewrite Hne. lia.
Qed.

Lemma of_list_from (c : Counter) words :
  let c' := fold_left (fun c w => add c w 1%Z) words c in
  (forall w, count c' w = (count c w + occurrences w words)%Z)
  /\ (wf c -> wf c')
  /\ keys c' = keys c ++ first_occurrences (keys c) words
  /\ total c' = (total c + Z.of_nat (length words))%Z.
Proof.
  revert c. induction words as [|x words IH]; intros c; cbn zeta.
  - simpl. unfold occurrences. simpl.
    repeat split; [intros; lia|auto|now rewrite app_nil_r|lia].
  - cbn [fold_left]. destruct (IH (add c x 1%Z)) as (Hc & Hwf & Hk & Ht).
    repeat split.
    + intros w. rewrite Hc, count_add, occurrences_cons. lia.
    + intros H. now apply Hwf, wf_add.
    + rewrite Hk, keys_add. cbn [first_occurrences].
      destruct (existsb (String.eqb x) (keys c)); [reflexivity|].
      rewrite <- app_assoc. simpl. do 2 f_equal.
      apply first_occurrences_ext. intros y. rewrite in_app_iff. simpl.
      tauto.
    + rewrite Ht, total_add. cbn [length]. lia.
Qed.

(** X6. [Counter(words)] (line 222) counts occurrences: the count of a
    word is the number of times it is in the list (0 for a word that is
    not), no key is twice in the counter, the keys are the words in the
    order of their first occurrence, and the counts add up to the length
    of the list. *)
Theorem counter_counts_occurrences (words : list string) :
  (forall w, count (of_list words) w = occurrences w words)
  /\ wf (of_list words)
  /\ keys (of_list words) = first_occurrences [] words
  /\ total (of_list words) = Z.of_nat (length words).
Proof.
  destruct (of_list_from [] words) as (Hc & Hwf & Hk & Ht).
  repeat split; auto.
  apply Hwf. constructor.
Qed.

Section Stemming.
Variable stem : string -> string.

Lemma stemming_from (stemmed word_counts : Counter) :
  let stemmed' :=
    fold_left (fun stemmed_word_counts '(word, count) =>
                 add stemmed_word_counts (stem word) count)
              word_counts stemmed in
  (forall t,
     count stemmed' t
     = (count stemmed t
        + sum_where (fun '(word, _) => String.eqb (stem word) t) snd
                    word_counts)%Z)
  /\ (wf stemmed -> wf stemmed')
  /\ total stemmed' = (total stemmed + total word_counts)%Z.
Proof.
  revert stemmed.
  induction word_counts as [|[w n] l IH]; intros stemmed; cbn zeta.
  - simpl. repeat split; [intros; lia|auto|unfold total; simpl; lia].
  - cbn [fold_left]. destruct (IH (add stemmed (stem w) n)) as (Hc & Hwf & Ht).
    repeat split.
    + intros t. rewrite Hc, count_add. simpl.
      destruct (String.eqb (stem w) t); lia.
    + intros H. now apply Hwf, wf_add.
    + rewrite Ht, total_add. unfold total, sum_list. simpl. lia.
Qed.

(** X7. The stemming loop (lines 224-228) merges the counts of the words
    that have the same stem and loses none: the count of a stem is the
    sum of the counts of the words that reduce to it, no stem is twice in
    the result, and the counts add up to what they added up to before. *)
Theorem stemming_merges_counts (word_counts : Counter) :
  let stemmed :=
    fold_left (fun stemmed_word_counts '(word, count) =>
                 add stemmed_word_counts (stem word) count)
              word_counts [] in
  (forall t,
     count stemmed t
     = sum_where (fun '(word, _) => String.eqb (stem word) t) snd
                 word_counts)
  /\ wf stemmed
  /\ total stemmed = total word_counts.
Proof.
  destruct (stemming_from [] word_counts) as (Hc & Hwf & Ht).
  repeat split; auto.
  apply Hwf. constructor.
Qed.

End Stemming.

(** X8. Whatever the flags, the extractor, the stemmer and the message,
    the counter [transform] gives for a message has no key twice: the
    batch the word-counter stage hands to the vocabulary stage is made of
    well-formed counters. *)
Theorem word_counts_well_formed
  (url_extractor : option (string -> list string))
  (stemmer : option (string -> string))
  (list_set : list string -> list string) (T : Html.CharRefs)
  (self : EmailToWordCounterTransformer) (X : list Email.Message) :
  Forall wf (transform url_extractor stemmer list_set T self X).
Proof.
  rewrite transform_map. apply Forall_forall. intros c Hc.
  apply in_map_iff in Hc as (email & <- & _).
  unfold word_counts_of.
  set (words := PyStr.split _).
  assert (Hw : wf (of_list words))
    by (destruct (of_list_from [] words) as (_ & Hwf & _);
        apply Hwf; constructor).
  destruct stemmer as [stem|]; [|exact Hw].
  destruct (stemming self); [|exact Hw].
  destruct (stemming_from stem [] (of_list words)) as (_ & Hwf & _).
  apply Hwf. constructor.
Qed.

(** X9. The URLs are replaced longest first (lines 214-216): the order of
    replacement has every URL of the set once, no URL comes before a
    longer one, and URLs of the same length stay in the order of the
    set. *)
Theorem urls_longest_first (urls : list string) :
  let key := fun url => Z.of_nat (String.length url) in
  Permutation (sorted_reverse key urls) urls
  /\ StronglySorted (fun u v => String.length v <= String.length u)
       (sorted_reverse key urls)
  /\ StronglySorted (sorted_order key urls) (sorted_reverse key urls).
Proof.
  intros key. split; [apply sorted_reverse_perm|].
  split; [|apply sorted_reverse_stable].
  eapply StronglySorted_impl; [|apply (sorted_reverse_stable key)].
  unfold key. intros u v [H|[H _]]; lia.
Qed.

End CountingFacts.

(* ===================================================================== *)
(** * Further properties: [html_to_plain_text] *)
(* ===================================================================== *)

Section HtmlFacts.
Import PyStr Notions Html.

Lemma find_gt_none s :
  find false ">" s = None
  <-> every (fun c => negb (is_char ">" c)) s = true.
Proof.
  induction s as [|c s IH]; [simpl; tauto|].
  cbn [find starts_with every]. unfold char_eq, is_char.
  rewrite (Ascii.eqb_sym ">" c).
  destruct (Ascii.eqb c ">"); simpl.
  - split; discriminate.
  - rewrite <- IH. destruct (find false ">" s); simpl;
      split; congruence.
Qed.

Lemma any_tag_none c s :
  any_tag (String c s) = None
  <-> (is_char "<" c = true ->
       every (fun c => negb (is_char ">" c)) s = true).
Proof.
  unfold any_tag, is_char. rewrite <- find_gt_none.
  destruct (Ascii.eqb c "<"); [|split; [discriminate|reflexivity]].
  destruct (find false ">" s); split; auto; try discriminate.
  intros H. now specialize (H eq_refl).
Qed.

Lemma any_tag_some s n : any_tag s = Some n -> exists j, n = S j.
Proof.
  unfold any_tag. destruct s as [|c s]; [discriminate|].
  destruct (Ascii.eqb c "<"); [|discriminate].
  destruct (find false ">" s); [|discriminate].
  intros [= <-]. eexists. reflexivity.
Qed.

(** A rule that replaces by nothing only removes characters. *)
Lemma strip_every (m : matcher) f skip s :
  every f s = true -> every f (sub_from (const_rule m "") skip s) = true.
Proof.
  revert skip. induction s as [|c s IH]; intros skip E; [reflexivity|].
  simpl in E. apply andb_prop in E as [Hc Hs].
  cbn [sub_from]. destruct skip as [|skip]; [|now apply IH].
  unfold const_rule at 1. destruct (m (String c s)) as [[|n]|]; simpl.
  - now rewrite Hc, IH.
  - now apply IH.
  - now rewrite Hc, IH.
Qed.

Lemma tag_stripping_from skip s k :
  any_tag (drop k (sub_from (const_rule any_tag "") skip s)) = None.
Proof.
  revert skip k. induction s as [|c s IH]; intros skip k.
  - now destruct k.
  - cbn [sub_from]. destruct skip as [|skip]; [|apply IH].
    unfold const_rule at 1.
    destruct (any_tag (String c s)) as [n|] eqn:E.
    + destruct (any_tag_some _ _ E) as [j ->]. simpl. apply IH.
    + simpl. destruct k as [|k]; [|apply IH].
      simpl drop. apply any_tag_none. intros Hc.
      apply strip_every. now apply any_tag_none in E.
Qed.

(** X10. Once line 121 has run, its pattern matches nowhere in the text:
    no [<] is followed, however far, by a [>], so no tag is left. *)
Theorem tag_stripping_leaves_no_tag (text : string) (k : nat) :
  any_tag (drop k (sub any_tag "" text)) = None.
Proof. apply tag_stripping_from. Qed.

Lemma sub_from_plain (r : rule) s :
  (forall t, every plain_char t = true -> r t = None) ->
  every plain_char s = true -> sub_from r 0 s = s.
Proof.
  intros Hr. induction s as [|c s IH]; intros E; [reflexivity|].
  cbn [sub_from]. rewrite (Hr _ E).
  simpl in E. apply andb_prop in E as [Hc Hs]. now rewrite IH.
Qed.

Lemma plain_char_not c :
  plain_char c = true ->
  Ascii.eqb c "<" = false /\ Ascii.eqb c "&" = false
  /\ Ascii.eqb c "010" = false.
Proof.
  unfold plain_char, is_char. intros H. apply negb_true_iff in H.
  apply orb_false_elim in H as [H H3]. apply orb_false_elim in H as [H1 H2].
  auto.
Qed.

Lemma char_eq_lt c : char_eq true "<" c = Ascii.eqb c "<".
Proof. destruct c as [[] [] [] [] [] [] [] []]; reflexivity. Qed.

Lemma last_newline_none n s :
  every (fun c => negb (is_char "010" c)) s = true ->
  last_newline n s = None.
Proof.
  revert s. induction n as [|n IH]; intros [|c s] E; try reflexivity.
  simpl in E. apply andb_prop in E as [Hc Hs]. cbn [last_newline].
  rewrite (IH s Hs). unfold is_char in Hc.
  now destruct (Ascii.eqb c "010").
Qed.

(** X11. A text without [<], [&] and newline goes through
    [html_to_plain_text] unchanged: none of the four patterns matches and
    there is no character reference to decode. *)
Theorem html_to_plain_text_plain (T : CharRefs) (text : string) :
  every plain_char text = true ->
  html_to_plain_text T text = text.
Proof.
  intros E. unfold html_to_plain_text, unescape, sub.
  assert (Hhead : forall t, every plain_char t = true ->
                            const_rule head_region "" t = None).
  { intros [|c t] Ht; [reflexivity|]. simpl in Ht.
    apply andb_prop in Ht as [Hc _].
    apply plain_char_not in Hc as (Hc & _ & _).
    unfold const_rule, head_region. cbn [starts_with].
    now rewrite char_eq_lt, Hc. }
  assert (Hanchor : forall t, every plain_char t = true ->
                              const_rule anchor_open " HYPERLINK " t = None).
  { intros [|c t] Ht; [reflexivity|]. simpl in Ht.
    apply andb_prop in Ht as [Hc _].
    apply plain_char_not in Hc as (Hc & _ & _).
    unfold const_rule, anchor_open.
    destruct t as [|a [|w t]]; try reflexivity. now rewrite Hc. }
  assert (Htag : forall t, every plain_char t = true ->
                           const_rule any_tag "" t = None).
  { intros [|c t] Ht; [reflexivity|]. simpl in Ht.
    apply andb_prop in Ht as [Hc _].
    apply plain_char_not in Hc as (Hc & _ & _).
    unfold const_rule, any_tag. now rewrite Hc. }
  assert (Hblank : forall t, every plain_char t = true ->
                             const_rule blank_lines (String "010" "") t
                             = None).
  { intros t Ht. unfold const_rule, blank_lines.
    rewrite last_newline_none; [reflexivity|].
    apply (every_impl plain_char); [|assumption].
    intros c Hc. apply plain_char_not in Hc as (_ & _ & Hc).
    unfold is_char. now rewrite Hc. }
  assert (Href : forall t, every plain_char t = true -> charref T t = None).
  { intros [|c t] Ht; [reflexivity|]. simpl in Ht.
    apply andb_prop in Ht as [Hc _].
    apply plain_char_not in Hc as (_ & Hc & _).
    unfold charref. now rewrite Hc. }
  cbv zeta.
  rewrite (sub_from_plain _ text Hhead E).
  rewrite (sub_from_plain _ text Hanchor E).
  rewrite (sub_from_plain _ text Htag E).
  rewrite (sub_from_plain _ text Hblank E).
  apply (sub_from_plain _ text Href E).
Qed.

Lemma html_to_plain_text_plain_witness :
  html_to_plain_text basic_refs "Free money now!" = "Free money now!".
Proof. apply html_to_plain_text_plain. reflexivity. Defined.

End HtmlFacts.

(* ===================================================================== *)
(** * Further properties: messages *)
(* ===================================================================== *)

Section MessageFacts.
Import PyDict Spec Notions Email Structure.
Variable T : Html.CharRefs.

Lemma loop_some_plain html parts :
  forallb (fun q => negb (is_plain q)) parts = false ->
  exists content, email_to_text_loop T html parts = Some content.
Proof.
  revert html. induction parts as [|q rest IH]; intros html H;
    [discriminate|].
  simpl in H. cbn [email_to_text_loop]. unfold is_plain in H.
  destruct (String.eqb (get_content_type q) "text/plain") eqn:Ep; simpl.
  - eexists. reflexivity.
  - simpl in H.
    destruct (String.eqb (get_content_type q) "text/html"); simpl;
      now apply IH.
Qed.

Lemma after_loop_none (content : string) :
  after_loop T (Some content) = None <-> content = "".
Proof.
  simpl. destruct (String.eqb_spec content ""); split;
    congruence || discriminate.
Qed.

(** X12. [email_to_text] returns [None] in two cases only, and always in
    them: no part is ["text/plain"] and either no part is ["text/html"]
    or the content of the last ["text/html"] part is the empty string. *)
Theorem email_to_text_none_iff (email : Message) :
  email_to_text T email = None
  <-> forallb (fun q => negb (is_plain q)) (walk email) = true
      /\ match last_html (walk email) with
         | Some h => part_content h = ""
         | None => True
         end.
Proof.
  unfold email_to_text.
  destruct (forallb (fun q => negb (is_plain q)) (walk email)) eqn:E.
  - rewrite loop_no_plain by assumption.
    destruct (last_html (walk email)) as [h|].
    + rewrite after_loop_none. tauto.
    + simpl. tauto.
  - destruct (loop_some_plain None _ E) as [content ->].
    split; [discriminate|]. intros [H _]. discriminate.
Qed.

(** X13. The messages that the filter of lines 128-132 keeps are
    single-part HTML messages: a message whose structure is ["text/html"]
    is a leaf of that content type, never a multipart, and its text is
    the conversion of its content, or [None] when the content is the
    empty string. *)
Theorem html_emails_are_html_leaves
  (emails : list Message) (email : Message) :
  In email (html_emails emails) ->
  In email emails
  /\ exists p,
       email = Leaf p
       /\ get_content_type p = "text/html"
       /\ email_to_text T email
          = if String.eqb (part_content p) "" then None
            else Some (Html.html_to_plain_text T (part_content p)).
Proof.
  unfold html_emails. intros H. apply filter_In in H as [Hin Hs].
  split; [assumption|]. apply String.eqb_eq in Hs.
  destruct email as [p|p payload]; [|discriminate].
  simpl in Hs. exists p. split; [reflexivity|]. split; [assumption|].
  unfold email_to_text. simpl. rewrite Hs. reflexivity.
Qed.

End MessageFacts.

Section StructureFacts.
Import PyDict Spec Notions Email Structure.

Lemma html_emails_are_html_leaves_witness :
  email_to_text Html.basic_refs (Leaf html_part)
  = Some " HYPERLINK link Hello & welcome".
Proof.
  destruct (html_emails_are_html_leaves Html.basic_refs
              [mixed_message; Leaf html_part; image_message]
              (Leaf html_part) ltac:(simpl; auto))
    as (_ & p & Hp & _ & Htext).
  injection Hp as <-. rewrite Htext. reflexivity.
Defined.


Lemma structures_counter_of_list emails :
  structures_counter emails = of_list (map get_email_structure emails).
Proof.
  unfold structures_counter, of_list. generalize (@nil (string * Z)).
  induction emails as [|email emails IH]; intros c; simpl; [reflexivity|].
  apply IH.
Qed.

(** X14. [structures_counter] (lines 76-81) counts the messages by
    structure: the count of a label is the number of messages that have
    it, no label is twice in the counter, and the counts add up to the
    number of messages. *)
Theorem structures_counter_counts (emails : list Message) :
  (forall label,
     count (structures_counter emails) label
     = occurrences label (map get_email_structure emails))
  /\ wf (structures_counter emails)
  /\ total (structures_counter emails) = Z.of_nat (length emails).
Proof.
  rewrite structures_counter_of_list. unfold of_list.
  destruct (of_list_from [] (map get_email_structure emails))
    as (Hc & Hwf & _ & Ht).
  split; [exact Hc|]. split; [apply Hwf; constructor|].
  rewrite Ht, length_map. reflexivity.
Qed.

End StructureFacts.

(* ===================================================================== *)
(** * Further properties: the vocabulary stage *)
(* ===================================================================== *)

Section VectorFacts.
Import PyList PyDict Spec Notions SciPy WordCounterToVector.

Lemma sum_list_app l1 l2 :
  sum_list (l1 ++ l2) = (sum_list l1 + sum_list l2)%Z.
Proof.
  unfold sum_list. induction l1 as [|x l1 IH]; simpl; [reflexivity|].
  rewrite IH. lia.
Qed.

Lemma sum_list_nth (row : list Z) :
  sum_list row
  = sum_list (map (fun j => nth j row 0%Z) (seq 0 (length row))).
Proof.
  induction row as [|x row IH]; [reflexivity|].
  cbn [length seq map]. rewrite <- seq_shift, map_map.
  unfold sum_list in *. simpl. now rewrite IH.
Qed.

Lemma sum_indicator (k c : Z) start n :
  sum_list (map (fun j => if (k =? Z.of_nat j)%Z then c else 0%Z)
                (seq start n))
  = if ((Z.of_nat start <=? k) && (k <? Z.of_nat (start + n)))%Z
    then c else 0%Z.
Proof.
  revert start. induction n as [|n IH]; intros start.
  - simpl. destruct (Z.leb_spec (Z.of_nat start) k);
      destruct (Z.ltb_spec k (Z.of_nat (start + 0))); simpl;
      reflexivity || lia.
  - cbn [seq map]. unfold sum_list in *. cbn [fold_right]. rewrite IH.
    destruct (Z.eqb_spec k (Z.of_nat start));
      destruct (Z.leb_spec (Z.of_nat (S start)) k);
      destruct (Z.ltb_spec k (Z.of_nat (S start + n)));
      destruct (Z.leb_spec (Z.of_nat start) k);
      destruct (Z.ltb_spec k (Z.of_nat (start + S n)));
      simpl; lia.
Qed.

Lemma sum_list_map_add {A : Type} (f g : A -> Z) l :
  sum_list (map (fun a => (f a + g a)%Z) l)
  = (sum_list (map f l) + sum_list (map g l))%Z.
Proof.
  unfold sum_list. induction l as [|a l IH]; simpl; [reflexivity|].
  rewrite IH. lia.
Qed.

Lemma column_total_cons vocabulary w c (l : Counter) j :
  column_total vocabulary ((w, c) :: l) j
  = ((if (column vocabulary w =? j)%Z then c else 0)
     + column_total vocabulary l j)%Z.
Proof.
  unfold column_total. simpl.
  destruct (column vocabulary w =? j)%Z; lia.
Qed.

(** Summed over the columns, the cells of a message are its counts. *)
Lemma sum_columns vocabulary (word_count : Counter) n :
  (forall w c, In (w, c) word_count ->
               (0 <= column vocabulary w < Z.of_nat n)%Z) ->
  sum_list (map (fun j => column_total vocabulary word_count (Z.of_nat j))
                (seq 0 n))
  = total word_count.
Proof.
  induction word_count as [|[w c] l IH]; intros Hcol.
  - unfold column_total, total. simpl.
    induction (seq 0 n) as [|j js IHj]; [reflexivity|].
    unfold sum_list in *. simpl. now rewrite IHj.
  - rewrite (map_ext _ (fun j =>
               ((if (column vocabulary w =? Z.of_nat j)%Z then c else 0)
                + column_total vocabulary l (Z.of_nat j))%Z))
      by (intros j; apply column_total_cons).
    rewrite (sum_list_map_add
               (fun j => if (column vocabulary w =? Z.of_nat j)%Z
                         then c else 0%Z)
               (fun j => column_total vocabulary l (Z.of_nat j))).
    rewrite IH by (intros w' c' Hin; apply (Hcol w' c'); simpl; auto).
    rewrite sum_indicator.
    specialize (Hcol w c (or_introl eq_refl)).
    destruct (Z.leb_spec (Z.of_nat 0) (column vocabulary w)); [|lia].
    destruct (Z.ltb_spec (column vocabulary w) (Z.of_nat (0 + n)));
      [|simpl in *; lia].
    unfold total, sum_list. simpl. reflexivity.
Qed.

(** X15. [transform] loses no count: on an object fitted with a
    vocabulary size that is not negative, and for a batch whose counts
    and whose cell totals fit in 64 bits, the cells of the row of a
    message add up to the counts of the message, known and unknown
    tokens together. *)
Theorem transform_row_sums
  (self0 : WordCounterToVectorTransformer) (X_train X : list Counter) :
  (0 <= vocabulary_size self0)%Z ->
  (forall word_count w c,
     In word_count X -> In (w, c) word_count -> int64 c = true) ->
  (forall word_count j,
     In word_count X ->
     int64 (column_total (vocabulary_of X_train (vocabulary_size self0))
              word_count j) = true) ->
  exists m,
    value (transform X) (after (fit X_train) self0) = Ok m
    /\ forall i word_count row,
         nth_error X i = Some word_count ->
         nth_error m i = Some row ->
         sum_list row = total word_count.
Proof.
  intros Hsize _ Hsum.
  set (self := after (fit X_train) self0).
  set (vocabulary := vocabulary_of X_train (vocabulary_size self0)) in *.
  assert (Hidx : forall w i,
             get vocabulary w = Some i ->
             (1 <= i <= vocabulary_size self)%Z).
  { intros w i Hg. now apply vocabulary_of_index in Hg. }
  destruct (transform_exact self vocabulary X eq_refl Hsize Hidx Hsum)
    as (m & Hm & [Hlen Hrows] & Hcell).
  exists m. split; [exact Hm|].
  intros i word_count row Hi Hrow.
  assert (Hn : length row = Z.to_nat (vocabulary_size self + 1)).
  { rewrite Forall_forall in Hrows. eapply Hrows, nth_error_In, Hrow. }
  rewrite sum_list_nth, Hn.
  rewrite <- (sum_columns vocabulary word_count
                (Z.to_nat (vocabulary_size self + 1))).
  - f_equal. apply map_ext. intros j.
    specialize (Hcell i j). rewrite Hi in Hcell. rewrite <- Hcell.
    unfold cell_at. now rewrite (nth_error_nth _ _ _ Hrow).
  - intros w c _. unfold column. specialize (Hidx w).
    destruct (get vocabulary w) as [k|].
    + specialize (Hidx k eq_refl). change (vocabulary_size self)
        with (vocabulary_size self0) in *. lia.
    + change (vocabulary_size self) with (vocabulary_size self0). lia.
Qed.

Lemma transform_row_sums_witness :
  exists m,
    value (transform [[("free", 50%Z); ("viagra", 3%Z); ("now", 1%Z)]])
          sample_fitted = Ok m
    /\ forall row, nth_error m 0 = Some row -> sum_list row = 54%Z.
Proof.
  destruct (transform_row_sums (init 2) sample_batch
              [[("free", 50%Z); ("viagra", 3%Z); ("now", 1%Z)]]
              ltac:(simpl; lia)) as (m & Hm & Hsum).
  - intros wc w c [<-|[]] Hin. simpl in Hin.
    destruct Hin as [[= <- <-]|[[= <- <-]|[[= <- <-]|[]]]]; reflexivity.
  - intros wc j [<-|[]]. apply column_total_int64;
      repeat constructor; simpl; lia.
  - exists m. split; [exact Hm|].
    intros row Hrow. now rewrite (Hsum 0 _ row eq_refl Hrow).
Defined.

(** ** Before [fit] *)

Lemma triples_all_empty self start (X : list Counter) lists :
  (forall word_count, In word_count X -> word_count = []) ->
  for_each
    (fun lists '(row, word_count) =>
       for_each (append_entry row) word_count lists)
    (enumerate_from start X) lists self
  = (Ok lists, self).
Proof.
  revert start. induction X as [|word_count X IH]; intros start Hall;
    [reflexivity|].
  cbn [enumerate_from for_each]. unfold bind at 1.
  rewrite (Hall word_count (or_introl eq_refl)). cbn [for_each]. unfold ret.
  apply IH. intros wc Hwc. apply Hall. now right.
Qed.

Lemma triples_unfitted self start (X : list Counter) lists :
  vocabulary_ self = None ->
  (exists word_count, In word_count X /\ word_count <> []) ->
  for_each
    (fun lists '(row, word_count) =>
       for_each (append_entry row) word_count lists)
    (enumerate_from start X) lists self
  = (Raise AttributeError, self).
Proof.
  intros Hnone. revert start lists.
  induction X as [|word_count X IH]; intros start lists (wc & Hin & Hne);
    [contradiction|].
  cbn [enumerate_from for_each]. unfold bind at 1.
  destruct word_count as [|[w c] rest].
  - cbn [for_each]. unfold ret. apply IH. exists wc. split; [|assumption].
    destruct Hin as [<-|Hin]; [congruence|assumption].
  - cbn [for_each]. destruct lists as [[rows cols] data].
    unfold append_entry, bind, get_vocabulary_. now rewrite Hnone.
Qed.

(** X16. On an object that [fit] has not run on, [transform] raises
    [AttributeError] exactly because it reads [vocabulary_] at the first
    token: with a token anywhere in the batch it raises, and for a batch
    of empty messages it returns the zero matrix (one row per message,
    [vocabulary_size + 1] columns, [vocabulary_size] at least -1); the
    object is unchanged either way. *)
Theorem transform_before_fit
  (self : WordCounterToVectorTransformer) (X : list Counter) :
  vocabulary_ self = None ->
  ((exists word_count, In word_count X /\ word_count <> []) ->
   value (transform X) self = Raise AttributeError)
  /\ ((forall word_count, In word_count X -> word_count = []) ->
      (-1 <= vocabulary_size self)%Z ->
      value (transform X) self
      = Ok (zeros (length X) (Z.to_nat (vocabulary_size self + 1))))
  /\ after (transform X) self = self.
Proof.
  intros Hnone. split; [|split].
  - intros Hsome. unfold value, transform, triples, enumerate, bind.
    now rewrite (triples_unfitted self 0 X _ Hnone Hsome).
  - intros Hall Hsize. unfold value, transform, triples, enumerate, bind.
    rewrite (triples_all_empty self 0 X _ Hall).
    unfold get_vocabulary_size, lift, csr_matrix. simpl.
    destruct (Z.leb_spec 0 (Z.of_nat (length X))); [|lia].
    destruct (Z.leb_spec 0 (vocabulary_size self + 1)); [|lia].
    simpl. now rewrite stored_zeros, Nat2Z.id.
  - apply read_only_transform.
Qed.

Lemma transform_before_fit_witness :
  value (transform sample_batch) (init 2) = Raise AttributeError
  /\ value (transform [[]; []]) (init 2) = Ok [[0; 0; 0]; [0; 0; 0]]%Z.
Proof.
  destruct (transform_before_fit (init 2) sample_batch eq_refl)
    as (Hraise & _ & _).
  destruct (transform_before_fit (init 2) [[]; []] eq_refl)
    as (_ & Hzero & _).
  split.
  - apply Hraise. exists [("free", 50%Z); ("now", 3%Z)].
    split; [simpl; auto|discriminate].
  - apply Hzero; [|simpl; lia].
    intros wc [<-|[<-|[]]]; reflexivity.
Defined.

(** ** The vocabulary *)

Lemma slice_to_length {A : Type} (l : list A) stop :
  length (slice_to l stop) = slice_length (length l) stop.
Proof.
  unfold slice_to, slice_length.
  destruct (Z.ltb_spec stop 0); rewrite length_firstn; lia.
Qed.

Lemma length_total_count X :
  length (total_count X) = length (encounter_order X).
Proof.
  rewrite <- keys_total_count. unfold keys. now rewrite length_map.
Qed.

(** X17. The vocabulary is as long as the slice of line 250 makes it: for
    a size that is not negative, the smaller of the size and of the
    number of distinct tokens of the batch; for a negative size, the
    number of distinct tokens less the absolute value of the size, and
    not below 0. *)
Theorem vocabulary_length
  (self : WordCounterToVectorTransformer) (X : list Counter) :
  exists vocabulary,
    vocabulary_ (after (fit X) self) = Some vocabulary
    /\ length vocabulary
       = slice_length (length (encounter_order X)) (vocabulary_size self).
Proof.
  exists (vocabulary_of X (vocabulary_size self)).
  split; [reflexivity|].
  rewrite vocabulary_of_numbered. unfold numbered, enumerate, keys.
  rewrite length_map, enumerate_from_length, length_map, slice_to_length.
  f_equal. rewrite <- length_total_count. unfold most_common.
  apply Permutation_length, sorted_reverse_perm.
Qed.

(** X18. Whatever the size, the vocabulary gives every token one entry
    and no index to two tokens: the columns of two tokens of the
    vocabulary never coincide. *)
Theorem vocabulary_indices_distinct
  (self : WordCounterToVectorTransformer) (X : list Counter) :
  exists vocabulary,
    vocabulary_ (after (fit X) self) = Some vocabulary
    /\ wf vocabulary
    /\ forall w1 w2 i,
         get vocabulary w1 = Some i -> get vocabulary w2 = Some i ->
         w1 = w2.
Proof.
  exists (vocabulary_of X (vocabulary_size self)).
  split; [reflexivity|]. rewrite vocabulary_of_numbered. split.
  - unfold wf. rewrite keys_numbered. apply vocabulary_keys_nodup.
  - intros w1 w2 i H1 H2.
    apply get_numbered_inv in H1 as (n1 & E1 & Hn1).
    apply get_numbered_inv in H2 as (n2 & E2 & Hn2).
    assert (n1 = n2) by lia. subst. congruence.
Qed.

(** X19. The tokens of the vocabulary are tokens of the training batch;
    and when the size is at least the number of distinct tokens of the
    batch, the vocabulary has all of them, so that no token of a training
    message is counted as unknown. *)
Theorem vocabulary_covers_batch
  (self : WordCounterToVectorTransformer) (X : list Counter) :
  exists vocabulary,
    vocabulary_ (after (fit X) self) = Some vocabulary
    /\ (forall w,
          In w (keys vocabulary) ->
          exists word_count, In word_count X /\ In w (keys word_count))
    /\ ((Z.of_nat (length (encounter_order X)) <= vocabulary_size self)%Z ->
        (forall w word_count,
           In word_count X -> In w (keys word_count) ->
           In w (keys vocabulary))
        /\ forall word_count,
             In word_count X -> unknown_total vocabulary word_count = 0%Z).
Proof.
  exists (vocabulary_of X (vocabulary_size self)).
  split; [reflexivity|].
  rewrite vocabulary_of_numbered, keys_numbered.
  split.
  - intros w Hw. apply In_encounter_order.
    apply (Permutation_in _ (ranking_perm X)).
    destruct (slice_to_firstn (most_common (total_count X))
                (vocabulary_size self)) as (n & Hn & _).
    rewrite Hn in Hw. unfold keys in *. rewrite <- firstn_map in Hw.
    rewrite <- (firstn_skipn n (map fst (most_common (total_count X)))).
    apply in_or_app. now left.
  - intros Hsize.
    assert (Hall : keys (slice_to (most_common (total_count X))
                           (vocabulary_size self))
                   = keys (most_common (total_count X))).
    { unfold slice_to. destruct (Z.ltb_spec (vocabulary_size self) 0);
        [lia|].
      f_equal. apply firstn_all2. unfold most_common.
      rewrite (Permutation_length (sorted_reverse_perm snd _)).
      rewrite length_total_count. lia. }
    assert (Hin : forall w word_count,
               In word_count X -> In w (keys word_count) ->
               In w (keys (slice_to (most_common (total_count X))
                             (vocabulary_size self)))).
    { intros w wc Hwc Hw. rewrite Hall.
      apply (Permutation_in _ (Permutation_sym (ranking_perm X))).
      apply In_encounter_order. now exists wc. }
    split; [exact Hin|].
    intros wc Hwc. unfold unknown_total. apply sum_where_none.
    intros [w c] Hpair.
    destruct (get _ w) eqn:E; [reflexivity|].
    apply get_None_keys in E. exfalso. apply E.
    rewrite keys_numbered. apply (Hin w wc Hwc).
    unfold keys. change w with (fst (w, c)). now apply in_map.
Qed.

Lemma vocabulary_covers_batch_witness :
  exists vocabulary,
    vocabulary_ (after (fit sample_batch) (init 10)) = Some vocabulary
    /\ unknown_total vocabulary [("now", 4%Z); ("hello", 1%Z)] = 0%Z.
Proof.
  destruct (vocabulary_covers_batch (init 10) sample_batch)
    as (vocabulary & Hvoc & _ & Hall).
  exists vocabulary. split; [exact Hvoc|].
  destruct (Hall ltac:(vm_compute; discriminate)) as [_ Hunknown].
  apply Hunknown. simpl. auto.
Defined.

(** ** The totals *)

Lemma capped_total_perm X X' w :
  Permutation X X' -> capped_total X w = capped_total X' w.
Proof.
  induction 1; simpl; lia.
Qed.

(** X20. The totals that rank the tokens do not depend on the order of
    the messages: a batch and a permutation of it give every token the
    same total, and the same tokens. *)
Theorem total_count_permutation (X X' : list Counter) :
  Forall wf X ->
  Permutation X X' ->
  (forall w, count (total_count X) w = count (total_count X') w)
  /\ (forall w, In w (keys (total_count X))
                <-> In w (keys (total_count X'))).
Proof.
  intros HX Hperm.
  assert (HX' : Forall wf X') by (eapply Permutation_Forall; eassumption).
  split.
  - intros w. rewrite !count_total_count by assumption.
    now apply capped_total_perm.
  - intros w. rewrite !keys_total_count, !In_encounter_order.
    split; intros (wc & Hwc & Hw); exists wc; split; try assumption.
    + eapply Permutation_in; eassumption.
    + eapply Permutation_in; [apply Permutation_sym|]; eassumption.
Qed.

Lemma total_count_permutation_witness :
  count (total_count sample_batch) "now"
  = count (total_count (rev sample_batch)) "now".
Proof.
  apply (total_count_permutation sample_batch (rev sample_batch)
           sample_batch_wf (Permutation_rev sample_batch)).
Defined.

Lemma count_absent (c : Counter) w : has_token w c = false -> count c w = 0%Z.
Proof.
  unfold has_token, count, get_default. intros H.
  destruct (get c w) eqn:E; [|reflexivity].
  apply get_In_keys in E. apply existsb_eqb_In in E. congruence.
Qed.

(** X21. No message weighs more than 10 in the total of a token: the
    total is at most ten times the number of messages that have the
    token. *)
Theorem total_count_bound (X : list Counter) (w : string) :
  Forall wf X ->
  (count (total_count X) w
   <= 10 * Z.of_nat (length (filter (has_token w) X)))%Z.
Proof.
  intros HX. rewrite count_total_count by assumption. clear HX.
  induction X as [|wc X IH]; [simpl; lia|].
  cbn [capped_total fold_right filter].
  fold (capped_total X w).
  destruct (has_token w wc) eqn:E.
  - cbn [length]. lia.
  - rewrite (count_absent wc w E). lia.
Qed.

Lemma total_count_bound_witness :
  (count (total_count sample_batch) "free" <= 10)%Z.
Proof.
  apply (total_count_bound sample_batch "free" sample_batch_wf).
Defined.

End VectorFacts.

(* ===================================================================== *)
(** * Further properties: the two stages in sequence *)
(* ===================================================================== *)

Section PipelineFacts.
Import PyList PyDict Spec Notions SciPy WordCounterToVector.
Variable url_extractor : option (string -> list string).
Variable stemmer : option (string -> string).
Variable list_set : list string -> list string.
Variable T : Html.CharRefs.
Variable email_to_wordcount : EmailToWordCounter.EmailToWordCounterTransformer.

Abbreviation wordcounts :=
  (Pipeline.wordcount_transform url_extractor stemmer list_set T
     email_to_wordcount).
Abbreviation pipeline_fit_transform :=
  (Pipeline.fit_transform url_extractor stemmer list_set T
     email_to_wordcount).
Abbreviation pipeline_transform :=
  (Pipeline.transform url_extractor stemmer list_set T email_to_wordcount).

Lemma wordcounts_length X : length (wordcounts X) = length X.
Proof.
  unfold Pipeline.wordcount_transform. rewrite transform_map.
  apply length_map.
Qed.

Lemma pipeline_fit_transform_runs X self0 :
  pipeline_fit_transform X self0
  = transform (wordcounts X) (after (fit (wordcounts X)) self0).
Proof. reflexivity. Qed.

Lemma transform_fitted_shape self0 X_train X :
  (0 <= vocabulary_size self0)%Z ->
  exists m,
    value (transform X) (after (fit X_train) self0) = Ok m
    /\ shaped (length X) (Z.to_nat (vocabulary_size self0 + 1)) m.
Proof.
  intros Hsize.
  destruct (transform_cells (after (fit X_train) self0)
              (vocabulary_of X_train (vocabulary_size self0)) X
              eq_refl Hsize) as (m & Hm & Hshape & _).
  - intros w i Hg. now apply vocabulary_of_index in Hg.
  - exists m. split; assumption.
Qed.

(** X22. The two stages in sequence (lines 281-288 and 300), for a
    vocabulary size that is not negative: [fit_transform] on the training
    messages does not raise and gives one row of [vocabulary_size + 1]
    cells per training message; it leaves the vocabulary of the word
    counts of the training messages; [transform] on other messages then
    does not raise either, gives one such row per message, and leaves the
    object, vocabulary included, as fitting left it. *)
Theorem pipeline_fit_then_transform
  (self0 : WordCounterToVectorTransformer)
  (X_train X_test : list Email.Message) :
  (0 <= vocabulary_size self0)%Z ->
  let size := vocabulary_size self0 in
  let fitted := after (pipeline_fit_transform X_train) self0 in
  (exists m,
     value (pipeline_fit_transform X_train) self0 = Ok m
     /\ shaped (length X_train) (Z.to_nat (size + 1)) m)
  /\ vocabulary_ fitted = Some (vocabulary_of (wordcounts X_train) size)
  /\ (exists m,
        value (pipeline_transform X_test) fitted = Ok m
        /\ shaped (length X_test) (Z.to_nat (size + 1)) m)
  /\ after (pipeline_transform X_test) fitted = fitted.
Proof.
  intros Hsize size fitted.
  assert (Hfitted : fitted = after (fit (wordcounts X_train)) self0).
  { unfold fitted, after. rewrite pipeline_fit_transform_runs.
    apply (read_only_transform (wordcounts X_train)). }
  split; [|split; [|split]].
  - unfold value. rewrite pipeline_fit_transform_runs.
    destruct (transform_fitted_shape self0 (wordcounts X_train)
                (wordcounts X_train) Hsize) as (m & Hm & Hshape).
    exists m. split; [exact Hm|]. now rewrite wordcounts_length in Hshape.
  - rewrite Hfitted. reflexivity.
  - rewrite Hfitted. unfold Pipeline.transform.
    destruct (transform_fitted_shape self0 (wordcounts X_train)
                (wordcounts X_test) Hsize) as (m & Hm & Hshape).
    exists m. split; [exact Hm|]. now rewrite wordcounts_length in Hshape.
  - apply read_only_transform.
Qed.

End PipelineFacts.

Section PipelineWitness.
Import PyDict WordCounterToVector.

Lemma pipeline_fit_then_transform_witness :
  vocabulary_
    (after (Pipeline.fit_transform (Some sample_find_urls)
              (Some sample_stem) sample_list_set Html.basic_refs
              all_enabled [mixed_message; html_message])
           (init 3))
  = Some [("free", 1%Z); ("money", 2%Z); ("now", 3%Z)].
Proof.
  destruct (pipeline_fit_then_transform (Some sample_find_urls)
              (Some sample_stem) sample_list_set Html.basic_refs
              all_enabled (init 3) [mixed_message; html_message]
              [image_message] ltac:(simpl; lia))
    as (_ & Hvoc & _).
  rewrite Hvoc. vm_compute. reflexivity.
Defined.

End PipelineWitness.

(* ===================================================================== *)
(** * Further properties: what a word of the counter looks like *)
(* ===================================================================== *)

Section WordFacts.
Import PyStr PyDict Spec Notions EmailToWordCounter.

(** What a rule puts in the text is either a character of the text or a
    character of a replacement. *)
Lemma sub_every (m : matcher) repl f skip s :
  every f repl = true -> every f s = true ->
  every f (sub_from (const_rule m repl) skip s) = true.
Proof.
  intros Hrepl. revert skip.
  induction s as [|c s IH]; intros skip E; [reflexivity|].
  simpl in E. apply andb_prop in E as [Hc Hs].
  cbn [sub_from]. destruct skip as [|skip]; [|now apply IH].
  unfold const_rule at 1. destruct (m (String c s)) as [[|n]|]; simpl.
  - now rewrite Hc, IH.
  - now rewrite every_app, Hrepl, IH.
  - now rewrite Hc, IH.
Qed.

Lemma flush_every f cur rest :
  every f cur = true ->
  Forall (fun w => every f w = true) rest ->
  Forall (fun w => every f w = true) (flush cur rest).
Proof.
  intros Hcur Hrest. destruct cur as [|c cur]; [exact Hrest|].
  unfold flush. constructor; [|exact Hrest].
  now rewrite rev_string_every, Hcur.
Qed.

Lemma split_from_every f cur s :
  every f cur = true -> every f s = true ->
  Forall (fun w => every f w = true) (split_from cur s).
Proof.
  revert cur. induction s as [|c s IH]; intros cur Hcur E; simpl.
  - now apply flush_every.
  - simpl in E. apply andb_prop in E as [Hc Hs].
    destruct (isspace c).
    + apply flush_every; [assumption|]. now apply IH.
    + apply IH; [|assumption]. simpl. now rewrite Hc, Hcur.
Qed.

Lemma keys_of_list_in words w : In w (keys (of_list words)) -> In w words.
Proof.
  destruct (of_list_from [] words) as (_ & _ & Hk & _).
  unfold of_list. rewrite Hk. simpl. intros H.
  now apply In_first_occurrences in H as [H _].
Qed.

Lemma word_not_space_char c :
  (isword c || is_char " " c) = true -> isspace c = false -> isword c = true.
Proof.
  intros H Hs. apply orb_prop in H as [H|H]; [assumption|].
  unfold is_char in H. apply Ascii.eqb_eq in H. subst. discriminate.
Qed.

Lemma every_word f g (h : ascii -> bool) w :
  (forall c, f c = true -> g c = true -> h c = true) ->
  every f w = true -> every g w = true -> every h w = true.
Proof.
  intros H. induction w as [|c w IH]; simpl; [reflexivity|].
  intros Ef Eg. apply andb_prop in Ef as [Hf Ef].
  apply andb_prop in Eg as [Hg Eg]. now rewrite (H c Hf Hg), IH.
Qed.

(** X23. Without stemming, the keys of the counter of a message are the
    tokens of its normalised text: none is empty and none has white
    space; with [remove_punctuation] they are made of word characters
    only; with [replace_numbers] none has a digit. *)
Theorem word_counts_keys
  (url_extractor : option (string -> list string))
  (stemmer : option (string -> string))
  (list_set : list string -> list string) (T : Html.CharRefs)
  (self : EmailToWordCounterTransformer) (email : Email.Message)
  (w : string) :
  stemming self = false ->
  In w (keys (word_counts_of url_extractor stemmer list_set T self email)) ->
  (w <> "" /\ every (fun c => negb (isspace c)) w = true)
  /\ (remove_punctuation self = true -> every isword w = true)
  /\ (replace_numbers self = true ->
      every (fun c => negb (isdigit c)) w = true).
Proof.
  intros Hstem. unfold word_counts_of. rewrite Hstem.
  set (text0 := match Email.email_to_text T email with
                | Some t => t
                | None => ""
                end).
  set (text1 := if lower_case self then lower text0 else text0).
  set (text2 := match url_extractor with
                | Some find_urls => _
                | None => text1
                end).
  set (text3 := if replace_numbers self
                then sub number "NUMBER" text2 else text2).
  set (text4 := if remove_punctuation self
                then sub non_word " " text3 else text3).
  intros Hin.
  assert (Hw : In w (split text4)).
  { apply keys_of_list_in. now destruct stemmer. }
  clear Hin. split; [|split].
  - pose proof (split_from_tokens "" text4 eq_refl) as Htok.
    rewrite Forall_forall in Htok. exact (Htok w Hw).
  - intros Hp.
    assert (E : every (fun c => isword c || is_char " " c) text4 = true).
    { unfold text4. rewrite Hp. apply punctuation_removal_from. now left. }
    pose proof (split_from_every _ "" text4 eq_refl E) as Hall.
    pose proof (split_from_tokens "" text4 eq_refl) as Htok.
    rewrite Forall_forall in Hall, Htok.
    destruct (Htok w Hw) as [_ Hns].
    apply (every_word (fun c => isword c || is_char " " c)
                      (fun c => negb (isspace c)) isword);
      [|now apply Hall|assumption].
    intros c Hc Hs. apply negb_true_iff in Hs.
    now apply word_not_space_char.
  - intros Hn.
    assert (E3 : every (fun c => negb (isdigit c)) text3 = true).
    { unfold text3. rewrite Hn. apply number_replacement_from. }
    assert (E4 : every (fun c => negb (isdigit c)) text4 = true).
    { unfold text4. destruct (remove_punctuation self); [|exact E3].
      now apply sub_every. }
    pose proof (split_from_every _ "" text4 eq_refl E4) as Hall.
    rewrite Forall_forall in Hall. now apply Hall.
Qed.

Lemma word_counts_keys_witness :
  every isword "NUMBER" = true.
Proof.
  destruct (word_counts_keys (Some sample_find_urls) None sample_list_set
              Html.basic_refs
              {| strip_headers := true; lower_case := true;
                 remove_punctuation := true; replace_urls := true;
                 replace_numbers := true; stemming := false |}
              (Email.Leaf (text_part "text/plain" "Only 3 left, hurry!"))
              "NUMBER" eq_refl ltac:(vm_compute; auto))
    as (_ & Hword & _).
  apply Hword. reflexivity.
Defined.

End WordFacts.
